(** * kv-explorer: the navigation and action state machine of the
      Key Vault terminal browser (kv-explorer.ts)

    The development embeds the closures of [main] in kv-explorer.ts as
    functions over an explicit application state:

    - the free variables of [main] ([state], [focus], [actionMode], the
      vault and secret collections, the secret cache, ...) are the record
      [Vars];
    - the properties of the widgets that the handlers read or write are the
      record [UI];
    - the Key Vault service behind [SecretClient], the clipboard and
      [process.exit] are the record [World];
    - an [async] handler is a computation [M A] that either returns or
      rejects, keeping the state reached at the point of rejection.

    Strings are Rocq strings (byte sequences): [trim] and [toLowerCase] are
    the ASCII restrictions of the JavaScript methods.

    The text that is formatted from a secret for the detail pane is kept as
    the data it is formatted from.  Beside the state machine, the development
    embeds the vault discovery ([getVaultsAllSubscriptions], from the results
    of the Azure CLI commands), the layout ([applyLayout]) and the drawing of
    the detail pane ([TextBlockElement.refreshContent], as the list of calls
    on the frame buffer).  Left out: the renderer and the widgets of the
    library. *)

From Stdlib Require Import String Ascii List Bool Arith NArith Lia.
From Stdlib Require Import ZArith Sorted.
From stdpp Require Import base option gmap strings list pretty.
Import ListNotations.

Local Open Scope string_scope.
Local Open Scope list_scope.

(** ** JavaScript string methods *)

Module Js.

(** [String.prototype.trimStart], on the ASCII white space characters. *)
Fixpoint trimStart (s : string) : string :=
  match s with
  | String a s' => if Ascii.is_space a then trimStart s' else s
  | EmptyString => EmptyString
  end.

(** [String.prototype.trimEnd]. *)
Fixpoint trimEnd (s : string) : string :=
  match s with
  | String a s' =>
      match trimEnd s' with
      | EmptyString => if Ascii.is_space a then EmptyString else String a EmptyString
      | r => String a r
      end
  | EmptyString => EmptyString
  end.

(** [String.prototype.trim]. *)
Definition trim (s : string) : string := trimEnd (trimStart s).

Definition lowerChar (c : ascii) : ascii :=
  let n := N_of_ascii c in
  if ((65 <=? n) && (n <=? 90))%N then ascii_of_N (n + 32) else c.

(** [String.prototype.toLowerCase], on the letters A-Z. *)
Fixpoint toLowerCase (s : string) : string :=
  match s with
  | String a s' => String (lowerChar a) (toLowerCase s')
  | EmptyString => EmptyString
  end.

(** [s.startsWith(t)]. *)
Fixpoint startsWith (s t : string) {struct t} : bool :=
  match t with
  | EmptyString => true
  | String b t' =>
      match s with
      | String a s' => if Ascii.eqb a b then startsWith s' t' else false
      | EmptyString => false
      end
  end.

(** [s.includes(t)]: [t] occurs in [s] as a contiguous substring. *)
Fixpoint includes (s t : string) : bool :=
  startsWith s t ||
  match s with
  | String _ s' => includes s' t
  | EmptyString => false
  end.

(** Truthiness of a string: only the empty string is falsy. *)
Definition truthy (s : string) : bool :=
  match s with EmptyString => false | _ => true end.

(** [a || b] on strings. *)
Definition or_else (a b : string) : string := if truthy a then a else b.

(** [a ?? b]. *)
Definition nullish {A} (a : option A) (b : A) : A :=
  match a with Some x => x | None => b end.

(** [String(n).padStart(2, "0")]. *)
Definition pad (n : nat) : string :=
  let s := pretty n in
  if (String.length s <? 2)%nat then "0" ++ s else s.

End Js.


(** ** Data model *)

(** Elements of [allVaults], as built by [getVaultsAllSubscriptions]. *)
Module Vault.
Record t := mk
    { name : string; vaultUri : string; id : string; location : option string }.
End Vault.

(** The part of a JavaScript [Date] that [formatDate] reads. *)
Record Date :=
  { getFullYear : nat; getMonth : nat; getDate : nat; getHours : nat; getMinutes : nat }.

(** [SecretProperties] of the Key Vault client: metadata only. *)
Module SecretProperties.
Record t := mk
    { name : string;
      contentType : option string;
      enabled : option bool;
      createdOn : option Date;
      updatedOn : option Date;
      expiresOn : option Date;
      tags : option (list (string * string)) }.
End SecretProperties.

(** The [value] of a list option is a vault or a secret. *)
Inductive OptionValue :=
  | VaultValue (v : Vault.t)
  | SecretValue (s : SecretProperties.t).

Module SelectOption.
Record t := mk { name : string; description : string; value : OptionValue }.
End SelectOption.

Module ViewState.
Inductive t := selectVault | listSecrets | moveSelectTarget.
Definition eqb (a b : t) : bool :=
  match a, b with
  | selectVault, selectVault => true
  | listSecrets, listSecrets => true
  | moveSelectTarget, moveSelectTarget => true
  | _, _ => false
  end.
End ViewState.

Module FocusTarget.
Inductive t := list | filter | command.
Definition eqb (a b : t) : bool :=
  match a, b with
  | list, list => true
  | filter, filter => true
  | command, command => true
  | _, _ => false
  end.
End FocusTarget.

Module ActionMode.
Inductive t :=
    none | editValue | rename | moveTarget | moveNewName | createName | createValue.
Definition eqb (a b : t) : bool :=
  match a, b with
  | none, none => true
  | editValue, editValue => true
  | rename, rename => true
  | moveTarget, moveTarget => true
  | moveNewName, moveNewName => true
  | createName, createName => true
  | createValue, createValue => true
  | _, _ => false
  end.
End ActionMode.

(** [new SecretClient(vaultUri, credential)]; the credential is not modelled. *)
Record SecretClient := { vaultUrl : string }.

(** The result of [getSecret]. *)
Record KeyVaultSecret := { value : option string }.

(** Requests sent to the Key Vault service. *)
Inductive RemoteCall :=
  | GetSecret (url name : string)
  | SetSecret (url name value : string)
  | BeginDeleteSecret (url name : string)
  | ListPropertiesOfSecrets (url : string).

Inductive Error :=
  | RestError (c : RemoteCall)
  | TypeError (msg : string).

(** Content of the [details] text block.  The text that [loadAndShowSecret]
    and the SELECTION_CHANGED handler format from a secret is kept as the
    data it is formatted from. *)
Inductive DetailsText :=
  | Text (s : string)
  | SecretDetails (sp : SecretProperties.t) (value : option (option string))
  | SecretPreview (sp : SecretProperties.t).

(** The variables declared under "State" in [main]. *)
Record Vars :=
  { state : ViewState.t;
    focus : FocusTarget.t;
    allVaults : list Vault.t;
    filteredVaults : list Vault.t;
    secretClient : option SecretClient;
    currentVault : option Vault.t;
    secretCache : gmap string (option string);
    allSecrets : list SecretProperties.t;
    filteredSecrets : list SecretProperties.t;
    atSecretDetail : bool;
    actionMode : ActionMode.t;
    actionSecret : option SecretProperties.t;
    moveTargetVault : option Vault.t;
    moveSourceSecret : option SecretProperties.t;
    createNewSecretName : option string }.

(** The widget properties that the handlers read or write. *)
Record UI :=
  { leftBox_title : string;
    rightBox_title : string;
    filter_value : string;
    filter_focused : bool;
    list_options : list SelectOption.t;
    list_selectedIndex : nat;
    list_focused : bool;
    details_text : DetailsText;
    details_styled : bool;
    commandBar_title : string;
    commandBar_value : string;
    commandBar_visible : bool;
    commandBar_focused : bool }.

(** What lies outside the process: the secrets of every vault (by vault URI),
    the requests sent so far, which requests the service refuses (given the
    requests sent before), the clipboard, and the exit code once
    [process.exit] has been called. *)
Record World :=
  { vaults : gmap string (gmap string string);
    calls : list RemoteCall;
    unavailable : list RemoteCall -> RemoteCall -> bool;
    pbcopy : bool;
    clipboard : option string;
    exited : option nat }.

Record App := { vars : Vars; ui : UI; world : World }.

(** *** Field updates *)

Class Setter {R T : Type} (proj : R -> T) := set : T -> R -> R.
Global Arguments set {R T} proj {Setter} _ _ : assert.

Definition set_state (x : ViewState.t) (r : Vars) : Vars :=
  {| state := x; focus := focus r; allVaults := allVaults r; filteredVaults :=
     filteredVaults r; secretClient := secretClient r; currentVault := currentVault r;
     secretCache := secretCache r; allSecrets := allSecrets r; filteredSecrets :=
     filteredSecrets r; atSecretDetail := atSecretDetail r; actionMode := actionMode r;
     actionSecret := actionSecret r; moveTargetVault := moveTargetVault r;
     moveSourceSecret := moveSourceSecret r; createNewSecretName := createNewSecretName r
     |}.
Definition set_focus (x : FocusTarget.t) (r : Vars) : Vars :=
  {| state := state r; focus := x; allVaults := allVaults r; filteredVaults :=
     filteredVaults r; secretClient := secretClient r; currentVault := currentVault r;
     secretCache := secretCache r; allSecrets := allSecrets r; filteredSecrets :=
     filteredSecrets r; atSecretDetail := atSecretDetail r; actionMode := actionMode r;
     actionSecret := actionSecret r; moveTargetVault := moveTargetVault r;
     moveSourceSecret := moveSourceSecret r; createNewSecretName := createNewSecretName r
     |}.
Definition set_allVaults (x : list Vault.t) (r : Vars) : Vars :=
  {| state := state r; focus := focus r; allVaults := x; filteredVaults := filteredVaults
     r; secretClient := secretClient r; currentVault := currentVault r; secretCache :=
     secretCache r; allSecrets := allSecrets r; filteredSecrets := filteredSecrets r;
     atSecretDetail := atSecretDetail r; actionMode := actionMode r; actionSecret :=
     actionSecret r; moveTargetVault := moveTargetVault r; moveSourceSecret :=
     moveSourceSecret r; createNewSecretName := createNewSecretName r |}.
Definition set_filteredVaults (x : list Vault.t) (r : Vars) : Vars :=
  {| state := state r; focus := focus r; allVaults := allVaults r; filteredVaults := x;
     secretClient := secretClient r; currentVault := currentVault r; secretCache :=
     secretCache r; allSecrets := allSecrets r; filteredSecrets := filteredSecrets r;
     atSecretDetail := atSecretDetail r; actionMode := actionMode r; actionSecret :=
     actionSecret r; moveTargetVault := moveTargetVault r; moveSourceSecret :=
     moveSourceSecret r; createNewSecretName := createNewSecretName r |}.
Definition set_secretClient (x : option SecretClient) (r : Vars) : Vars :=
  {| state := state r; focus := focus r; allVaults := allVaults r; filteredVaults :=
     filteredVaults r; secretClient := x; currentVault := currentVault r; secretCache :=
     secretCache r; allSecrets := allSecrets r; filteredSecrets := filteredSecrets r;
     atSecretDetail := atSecretDetail r; actionMode := actionMode r; actionSecret :=
     actionSecret r; moveTargetVault := moveTargetVault r; moveSourceSecret :=
     moveSourceSecret r; createNewSecretName := createNewSecretName r |}.
Definition set_currentVault (x : option Vault.t) (r : Vars) : Vars :=
  {| state := state r; focus := focus r; allVaults := allVaults r; filteredVaults :=
     filteredVaults r; secretClient := secretClient r; currentVault := x; secretCache :=
     secretCache r; allSecrets := allSecrets r; filteredSecrets := filteredSecrets r;
     atSecretDetail := atSecretDetail r; actionMode := actionMode r; actionSecret :=
     actionSecret r; moveTargetVault := moveTargetVault r; moveSourceSecret :=
     moveSourceSecret r; createNewSecretName := createNewSecretName r |}.
Definition set_secretCache (x : gmap string (option string)) (r : Vars) : Vars :=
  {| state := state r; focus := focus r; allVaults := allVaults r; filteredVaults :=
     filteredVaults r; secretClient := secretClient r; currentVault := currentVault r;
     secretCache := x; allSecrets := allSecrets r; filteredSecrets := filteredSecrets r;
     atSecretDetail := atSecretDetail r; actionMode := actionMode r; actionSecret :=
     actionSecret r; moveTargetVault := moveTargetVault r; moveSourceSecret :=
     moveSourceSecret r; createNewSecretName := createNewSecretName r |}.
Definition set_allSecrets (x : list SecretProperties.t) (r : Vars) : Vars :=
  {| state := state r; focus := focus r; allVaults := allVaults r; filteredVaults :=
     filteredVaults r; secretClient := secretClient r; currentVault := currentVault r;
     secretCache := secretCache r; allSecrets := x; filteredSecrets := filteredSecrets r;
     atSecretDetail := atSecretDetail r; actionMode := actionMode r; actionSecret :=
     actionSecret r; moveTargetVault := moveTargetVault r; moveSourceSecret :=
     moveSourceSecret r; createNewSecretName := createNewSecretName r |}.
Definition set_filteredSecrets (x : list SecretProperties.t) (r : Vars) : Vars :=
  {| state := state r; focus := focus r; allVaults := allVaults r; filteredVaults :=
     filteredVaults r; secretClient := secretClient r; currentVault := currentVault r;
     secretCache := secretCache r; allSecrets := allSecrets r; filteredSecrets := x;
     atSecretDetail := atSecretDetail r; actionMode := actionMode r; actionSecret :=
     actionSecret r; moveTargetVault := moveTargetVault r; moveSourceSecret :=
     moveSourceSecret r; createNewSecretName := createNewSecretName r |}.
Definition set_atSecretDetail (x : bool) (r : Vars) : Vars :=
  {| state := state r; focus := focus r; allVaults := allVaults r; filteredVaults :=
     filteredVaults r; secretClient := secretClient r; currentVault := currentVault r;
     secretCache := secretCache r; allSecrets := allSecrets r; filteredSecrets :=
     filteredSecrets r; atSecretDetail := x; actionMode := actionMode r; actionSecret :=
     actionSecret r; moveTargetVault := moveTargetVault r; moveSourceSecret :=
     moveSourceSecret r; createNewSecretName := createNewSecretName r |}.
Definition set_actionMode (x : ActionMode.t) (r : Vars) : Vars :=
  {| state := state r; focus := focus r; allVaults := allVaults r; filteredVaults :=
     filteredVaults r; secretClient := secretClient r; currentVault := currentVault r;
     secretCache := secretCache r; allSecrets := allSecrets r; filteredSecrets :=
     filteredSecrets r; atSecretDetail := atSecretDetail r; actionMode := x; actionSecret
     := actionSecret r; moveTargetVault := moveTargetVault r; moveSourceSecret :=
     moveSourceSecret r; createNewSecretName := createNewSecretName r |}.
Definition set_actionSecret (x : option SecretProperties.t) (r : Vars) : Vars :=
  {| state := state r; focus := focus r; allVaults := allVaults r; filteredVaults :=
     filteredVaults r; secretClient := secretClient r; currentVault := currentVault r;
     secretCache := secretCache r; allSecrets := allSecrets r; filteredSecrets :=
     filteredSecrets r; atSecretDetail := atSecretDetail r; actionMode := actionMode r;
     actionSecret := x; moveTargetVault := moveTargetVault r; moveSourceSecret :=
     moveSourceSecret r; createNewSecretName := createNewSecretName r |}.
Definition set_moveTargetVault (x : option Vault.t) (r : Vars) : Vars :=
  {| state := state r; focus := focus r; allVaults := allVaults r; filteredVaults :=
     filteredVaults r; secretClient := secretClient r; currentVault := currentVault r;
     secretCache := secretCache r; allSecrets := allSecrets r; filteredSecrets :=
     filteredSecrets r; atSecretDetail := atSecretDetail r; actionMode := actionMode r;
     actionSecret := actionSecret r; moveTargetVault := x; moveSourceSecret :=
     moveSourceSecret r; createNewSecretName := createNewSecretName r |}.
Definition set_moveSourceSecret (x : option SecretProperties.t) (r : Vars) : Vars :=
  {| state := state r; focus := focus r; allVaults := allVaults r; filteredVaults :=
     filteredVaults r; secretClient := secretClient r; currentVault := currentVault r;
     secretCache := secretCache r; allSecrets := allSecrets r; filteredSecrets :=
     filteredSecrets r; atSecretDetail := atSecretDetail r; actionMode := actionMode r;
     actionSecret := actionSecret r; moveTargetVault := moveTargetVault r;
     moveSourceSecret := x; createNewSecretName := createNewSecretName r |}.
Definition set_createNewSecretName (x : option string) (r : Vars) : Vars :=
  {| state := state r; focus := focus r; allVaults := allVaults r; filteredVaults :=
     filteredVaults r; secretClient := secretClient r; currentVault := currentVault r;
     secretCache := secretCache r; allSecrets := allSecrets r; filteredSecrets :=
     filteredSecrets r; atSecretDetail := atSecretDetail r; actionMode := actionMode r;
     actionSecret := actionSecret r; moveTargetVault := moveTargetVault r;
     moveSourceSecret := moveSourceSecret r; createNewSecretName := x |}.

#[global] Instance setter_state : Setter state := set_state.
#[global] Instance setter_focus : Setter focus := set_focus.
#[global] Instance setter_allVaults : Setter allVaults := set_allVaults.
#[global] Instance setter_filteredVaults : Setter filteredVaults := set_filteredVaults.
#[global] Instance setter_secretClient : Setter secretClient := set_secretClient.
#[global] Instance setter_currentVault : Setter currentVault := set_currentVault.
#[global] Instance setter_secretCache : Setter secretCache := set_secretCache.
#[global] Instance setter_allSecrets : Setter allSecrets := set_allSecrets.
#[global] Instance setter_filteredSecrets : Setter filteredSecrets := set_filteredSecrets.
#[global] Instance setter_atSecretDetail : Setter atSecretDetail := set_atSecretDetail.
#[global] Instance setter_actionMode : Setter actionMode := set_actionMode.
#[global] Instance setter_actionSecret : Setter actionSecret := set_actionSecret.
#[global] Instance setter_moveTargetVault : Setter moveTargetVault := set_moveTargetVault.
#[global] Instance setter_moveSourceSecret : Setter moveSourceSecret := set_moveSourceSecret.
#[global] Instance setter_createNewSecretName : Setter createNewSecretName := set_createNewSecretName.

Definition set_leftBox_title (x : string) (r : UI) : UI :=
  {| leftBox_title := x; rightBox_title := rightBox_title r; filter_value := filter_value
     r; filter_focused := filter_focused r; list_options := list_options r;
     list_selectedIndex := list_selectedIndex r; list_focused := list_focused r;
     details_text := details_text r; details_styled := details_styled r; commandBar_title
     := commandBar_title r; commandBar_value := commandBar_value r; commandBar_visible :=
     commandBar_visible r; commandBar_focused := commandBar_focused r |}.
Definition set_rightBox_title (x : string) (r : UI) : UI :=
  {| leftBox_title := leftBox_title r; rightBox_title := x; filter_value := filter_value
     r; filter_focused := filter_focused r; list_options := list_options r;
     list_selectedIndex := list_selectedIndex r; list_focused := list_focused r;
     details_text := details_text r; details_styled := details_styled r; commandBar_title
     := commandBar_title r; commandBar_value := commandBar_value r; commandBar_visible :=
     commandBar_visible r; commandBar_focused := commandBar_focused r |}.
Definition set_filter_value (x : string) (r : UI) : UI :=
  {| leftBox_title := leftBox_title r; rightBox_title := rightBox_title r; filter_value :=
     x; filter_focused := filter_focused r; list_options := list_options r;
     list_selectedIndex := list_selectedIndex r; list_focused := list_focused r;
     details_text := details_text r; details_styled := details_styled r; commandBar_title
     := commandBar_title r; commandBar_value := commandBar_value r; commandBar_visible :=
     commandBar_visible r; commandBar_focused := commandBar_focused r |}.
Definition set_filter_focused (x : bool) (r : UI) : UI :=
  {| leftBox_title := leftBox_title r; rightBox_title := rightBox_title r; filter_value :=
     filter_value r; filter_focused := x; list_options := list_options r;
     list_selectedIndex := list_selectedIndex r; list_focused := list_focused r;
     details_text := details_text r; details_styled := details_styled r; commandBar_title
     := commandBar_title r; commandBar_value := commandBar_value r; commandBar_visible :=
     commandBar_visible r; commandBar_focused := commandBar_focused r |}.
Definition set_list_options (x : list SelectOption.t) (r : UI) : UI :=
  {| leftBox_title := leftBox_title r; rightBox_title := rightBox_title r; filter_value :=
     filter_value r; filter_focused := filter_focused r; list_options := x;
     list_selectedIndex := list_selectedIndex r; list_focused := list_focused r;
     details_text := details_text r; details_styled := details_styled r; commandBar_title
     := commandBar_title r; commandBar_value := commandBar_value r; commandBar_visible :=
     commandBar_visible r; commandBar_focused := commandBar_focused r |}.
Definition set_list_selectedIndex (x : nat) (r : UI) : UI :=
  {| leftBox_title := leftBox_title r; rightBox_title := rightBox_title r; filter_value :=
     filter_value r; filter_focused := filter_focused r; list_options := list_options r;
     list_selectedIndex := x; list_focused := list_focused r; details_text := details_text
     r; details_styled := details_styled r; commandBar_title := commandBar_title r;
     commandBar_value := commandBar_value r; commandBar_visible := commandBar_visible r;
     commandBar_focused := commandBar_focused r |}.
Definition set_list_focused (x : bool) (r : UI) : UI :=
  {| leftBox_title := leftBox_title r; rightBox_title := rightBox_title r; filter_value :=
     filter_value r; filter_focused := filter_focused r; list_options := list_options r;
     list_selectedIndex := list_selectedIndex r; list_focused := x; details_text :=
     details_text r; details_styled := details_styled r; commandBar_title :=
     commandBar_title r; commandBar_value := commandBar_value r; commandBar_visible :=
     commandBar_visible r; commandBar_focused := commandBar_focused r |}.
Definition set_details_text (x : DetailsText) (r : UI) : UI :=
  {| leftBox_title := leftBox_title r; rightBox_title := rightBox_title r; filter_value :=
     filter_value r; filter_focused := filter_focused r; list_options := list_options r;
     list_selectedIndex := list_selectedIndex r; list_focused := list_focused r;
     details_text := x; details_styled := details_styled r; commandBar_title :=
     commandBar_title r; commandBar_value := commandBar_value r; commandBar_visible :=
     commandBar_visible r; commandBar_focused := commandBar_focused r |}.
Definition set_details_styled (x : bool) (r : UI) : UI :=
  {| leftBox_title := leftBox_title r; rightBox_title := rightBox_title r; filter_value :=
     filter_value r; filter_focused := filter_focused r; list_options := list_options r;
     list_selectedIndex := list_selectedIndex r; list_focused := list_focused r;
     details_text := details_text r; details_styled := x; commandBar_title :=
     commandBar_title r; commandBar_value := commandBar_value r; commandBar_visible :=
     commandBar_visible r; commandBar_focused := commandBar_focused r |}.
Definition set_commandBar_title (x : string) (r : UI) : UI :=
  {| leftBox_title := leftBox_title r; rightBox_title := rightBox_title r; filter_value :=
     filter_value r; filter_focused := filter_focused r; list_options := list_options r;
     list_selectedIndex := list_selectedIndex r; list_focused := list_focused r;
     details_text := details_text r; details_styled := details_styled r; commandBar_title
     := x; commandBar_value := commandBar_value r; commandBar_visible :=
     commandBar_visible r; commandBar_focused := commandBar_focused r |}.
Definition set_commandBar_value (x : string) (r : UI) : UI :=
  {| leftBox_title := leftBox_title r; rightBox_title := rightBox_title r; filter_value :=
     filter_value r; filter_focused := filter_focused r; list_options := list_options r;
     list_selectedIndex := list_selectedIndex r; list_focused := list_focused r;
     details_text := details_text r; details_styled := details_styled r; commandBar_title
     := commandBar_title r; commandBar_value := x; commandBar_visible :=
     commandBar_visible r; commandBar_focused := commandBar_focused r |}.
Definition set_commandBar_visible (x : bool) (r : UI) : UI :=
  {| leftBox_title := leftBox_title r; rightBox_title := rightBox_title r; filter_value :=
     filter_value r; filter_focused := filter_focused r; list_options := list_options r;
     list_selectedIndex := list_selectedIndex r; list_focused := list_focused r;
     details_text := details_text r; details_styled := details_styled r; commandBar_title
     := commandBar_title r; commandBar_value := commandBar_value r; commandBar_visible :=
     x; commandBar_focused := commandBar_focused r |}.
Definition set_commandBar_focused (x : bool) (r : UI) : UI :=
  {| leftBox_title := leftBox_title r; rightBox_title := rightBox_title r; filter_value :=
     filter_value r; filter_focused := filter_focused r; list_options := list_options r;
     list_selectedIndex := list_selectedIndex r; list_focused := list_focused r;
     details_text := details_text r; details_styled := details_styled r; commandBar_title
     := commandBar_title r; commandBar_value := commandBar_value r; commandBar_visible :=
     commandBar_visible r; commandBar_focused := x |}.

#[global] Instance setter_leftBox_title : Setter leftBox_title := set_leftBox_title.
#[global] Instance setter_rightBox_title : Setter rightBox_title := set_rightBox_title.
#[global] Instance setter_filter_value : Setter filter_value := set_filter_value.
#[global] Instance setter_filter_focused : Setter filter_focused := set_filter_focused.
#[global] Instance setter_list_options : Setter list_options := set_list_options.
#[global] Instance setter_list_selectedIndex : Setter list_selectedIndex := set_list_selectedIndex.
#[global] Instance setter_list_focused : Setter list_focused := set_list_focused.
#[global] Instance setter_details_text : Setter details_text := set_details_text.
#[global] Instance setter_details_styled : Setter details_styled := set_details_styled.
#[global] Instance setter_commandBar_title : Setter commandBar_title := set_commandBar_title.
#[global] Instance setter_commandBar_value : Setter commandBar_value := set_commandBar_value.
#[global] Instance setter_commandBar_visible : Setter commandBar_visible := set_commandBar_visible.
#[global] Instance setter_commandBar_focused : Setter commandBar_focused := set_commandBar_focused.

Definition set_vaults (x : gmap string (gmap string string)) (r : World) : World :=
  {| vaults := x; calls := calls r; unavailable := unavailable r; pbcopy := pbcopy r;
     clipboard := clipboard r; exited := exited r |}.
Definition set_calls (x : list RemoteCall) (r : World) : World :=
  {| vaults := vaults r; calls := x; unavailable := unavailable r; pbcopy := pbcopy r;
     clipboard := clipboard r; exited := exited r |}.
Definition set_unavailable (x : list RemoteCall -> RemoteCall -> bool) (r : World) : World :=
  {| vaults := vaults r; calls := calls r; unavailable := x; pbcopy := pbcopy r; clipboard
     := clipboard r; exited := exited r |}.
Definition set_pbcopy (x : bool) (r : World) : World :=
  {| vaults := vaults r; calls := calls r; unavailable := unavailable r; pbcopy := x;
     clipboard := clipboard r; exited := exited r |}.
Definition set_clipboard (x : option string) (r : World) : World :=
  {| vaults := vaults r; calls := calls r; unavailable := unavailable r; pbcopy := pbcopy
     r; clipboard := x; exited := exited r |}.
Definition set_exited (x : option nat) (r : World) : World :=
  {| vaults := vaults r; calls := calls r; unavailable := unavailable r; pbcopy := pbcopy
     r; clipboard := clipboard r; exited := x |}.

#[global] Instance setter_vaults : Setter vaults := set_vaults.
#[global] Instance setter_calls : Setter calls := set_calls.
#[global] Instance setter_unavailable : Setter unavailable := set_unavailable.
#[global] Instance setter_pbcopy : Setter pbcopy := set_pbcopy.
#[global] Instance setter_clipboard : Setter clipboard := set_clipboard.
#[global] Instance setter_exited : Setter exited := set_exited.

Definition set_vars (x : Vars) (r : App) : App :=
  {| vars := x; ui := ui r; world := world r |}.
Definition set_ui (x : UI) (r : App) : App :=
  {| vars := vars r; ui := x; world := world r |}.
Definition set_world (x : World) (r : App) : App :=
  {| vars := vars r; ui := ui r; world := x |}.

#[global] Instance setter_vars : Setter vars := set_vars.
#[global] Instance setter_ui : Setter ui := set_ui.
#[global] Instance setter_world : Setter world := set_world.


(** ** Handlers as computations

    A handler runs on the application state and either returns a value
    ([Fulfilled]) or throws ([Rejected]); in both cases it leaves the state
    it has reached.  Handlers are run one after the other: the interleaving
    of other events at an [await] is not modelled. *)

Inductive Outcome (A : Type) :=
  | Fulfilled (a : A) (s : App)
  | Rejected (e : Error) (s : App).
Global Arguments Fulfilled {A} a s.
Global Arguments Rejected {A} e s.

(** The state in which a computation ends. *)
Definition final {A} (o : Outcome A) : App :=
  match o with Fulfilled _ s => s | Rejected _ s => s end.

Definition M (A : Type) : Type := App -> Outcome A.

#[global] Instance M_ret : MRet M := fun A (x : A) s => Fulfilled x s.
#[global] Instance M_bind : MBind M := fun A B (f : A -> M B) (m : M A) s =>
  match m s with
  | Fulfilled x s' => f x s'
  | Rejected e s' => Rejected e s'
  end.

Definition throw {A} (e : Error) : M A := fun s => Rejected e s.

(** [try { m } catch (e) { h e }]. *)
Definition try_catch {A} (m : M A) (h : Error -> M A) : M A := fun s =>
  match m s with
  | Fulfilled x s' => Fulfilled x s'
  | Rejected e s' => h e s'
  end.

(** The three parts of the state, for reading and assigning their fields. *)
Class Part (R : Type) := { part : App -> R; update : (R -> R) -> App -> App }.
#[global] Instance part_vars : Part Vars :=
  {| part := vars; update f a := set_vars (f (vars a)) a |}.
#[global] Instance part_ui : Part UI :=
  {| part := ui; update f a := set_ui (f (ui a)) a |}.
#[global] Instance part_world : Part World :=
  {| part := world; update f a := set_world (f (world a)) a |}.

Definition read {R T} `{Part R} (proj : R -> T) : M T :=
  fun a => Fulfilled (proj (part a)) a.
Definition assign {R T} `{Part R} (proj : R -> T) `{!Setter proj} (x : T) : M unit :=
  fun a => Fulfilled tt (update (set proj x) a).
Notation "f ::= x" := (assign f x) (at level 70, no associativity).

(** [if (c) { m }]. *)
Definition when (c : bool) (m : M unit) : M unit := if c then m else mret tt.

(** ** The Key Vault service *)

(** Every request is recorded; the service may refuse it. *)
Definition request (c : RemoteCall) : M unit := fun a =>
  let w := world a in
  let a' := update (set calls (calls w ++ [c])) a in
  if unavailable w (calls w) c then Rejected (RestError c) a' else Fulfilled tt a'.

(** The value the service holds for a secret of a vault. *)
Definition lookupSecret (w : World) (url name : string) : option string :=
  match vaults w !! url with
  | Some secrets => secrets !! name
  | None => None
  end.

(** [client.getSecret(name)]: throws when the request is refused or the vault
    has no such secret. *)
Definition getSecret (client : SecretClient) (name : string) : M KeyVaultSecret :=
  let c := GetSecret (vaultUrl client) name in
  request c;;
  found ← read (fun w => lookupSecret w (vaultUrl client) name);
  match found with
  | Some v => mret {| value := Some v |}
  | None => throw (RestError c)
  end.

(** [client.setSecret(name, value)]. *)
Definition setSecret (client : SecretClient) (name value : string) : M unit :=
  let c := SetSecret (vaultUrl client) name value in
  request c;;
  vs ← read vaults;
  match vs !! vaultUrl client with
  | Some secrets => vaults ::= <[vaultUrl client := <[name := value]> secrets]> vs
  | None => throw (RestError c)
  end.

(** [client.beginDeleteSecret(name)]. *)
Definition beginDeleteSecret (client : SecretClient) (name : string) : M unit :=
  let c := BeginDeleteSecret (vaultUrl client) name in
  request c;;
  vs ← read vaults;
  match vs !! vaultUrl client with
  | Some secrets =>
      match secrets !! name with
      | Some _ => vaults ::= <[vaultUrl client := delete name secrets]> vs
      | None => throw (RestError c)
      end
  | None => throw (RestError c)
  end.

(** The properties the service reports for a secret set by name and value. *)
Definition propertiesOf (name : string) : SecretProperties.t :=
  SecretProperties.mk name None (Some true) None None None None.

(** [client.listPropertiesOfSecrets()], iterated to the end. *)
Definition listPropertiesOfSecrets (client : SecretClient) : M (list SecretProperties.t) :=
  let c := ListPropertiesOfSecrets (vaultUrl client) in
  request c;;
  vs ← read vaults;
  match vs !! vaultUrl client with
  | Some secrets => mret (map propertiesOf (map fst (map_to_list secrets)))
  | None => throw (RestError c)
  end.

(** ** The list widget

    [SelectElement] belongs to the widget library, which is not part of the
    sources.  Its [setOptions] replaces the options; which selection index it
    keeps (from the previous index and the number of new options) is a
    parameter of the development.  Events that a widget emits from within its
    own methods are not modelled. *)
Class ListWidget := keptIndex : nat -> nat -> nat.

(** A widget that keeps the index, clamped into the new range. *)
Definition clampIndex : ListWidget := fun i n => Nat.min i (Nat.max 0 (n - 1)).

(** A list option read as a [SecretProperties]: of a vault object only the
    [name] field is found. *)
Definition asSecret (v : OptionValue) : SecretProperties.t :=
  match v with
  | SecretValue s => s
  | VaultValue v => SecretProperties.mk (Vault.name v) None None None None None None
  end.

(** A list option read as a vault.  The list holds vault options whenever
    [state] is [selectVault] or [moveSelectTarget]. *)
Definition asVault (v : OptionValue) : option Vault.t :=
  match v with
  | VaultValue v => Some v
  | SecretValue _ => None
  end.

(** [formatDate(d)]. *)
Definition formatDate (d : option Date) : string :=
  match d with
  | None => ""
  | Some d =>
      pretty (getFullYear d) ++ "-" ++ Js.pad (getMonth d + 1) ++ "-" ++ Js.pad (getDate d)
      ++ " " ++ Js.pad (getHours d) ++ ":" ++ Js.pad (getMinutes d)
  end.

(** The list option that [setListOptionsFromVaults] builds for a vault. *)
Definition vaultOption (v : Vault.t) : SelectOption.t :=
  {| SelectOption.name := Vault.name v;
     SelectOption.description :=
       match Vault.location v with
       | Some l => if Js.truthy l then "location: " ++ l else Vault.vaultUri v
       | None => Vault.vaultUri v
       end;
     SelectOption.value := VaultValue v |}.

(** The list option that [setListOptionsFromSecrets] builds for a secret. *)
Definition secretOption (s : SecretProperties.t) : SelectOption.t :=
  {| SelectOption.name := SecretProperties.name s;
     SelectOption.description :=
       Js.trim
         ((match SecretProperties.enabled s with Some false => "(disabled) " | _ => "" end)
          ++ Js.nullish (SecretProperties.contentType s) "" ++ " "
          ++ match SecretProperties.updatedOn s with
             | Some d => " · " ++ formatDate (Some d)
             | None => ""
             end);
     SelectOption.value := SecretValue s |}.

(** [array.findIndex(p)]; [None] stands for -1. *)
Fixpoint findIndex {A} (p : A -> bool) (l : list A) : option nat :=
  match l with
  | [] => None
  | x :: l' => if p x then Some 0 else S <$> findIndex p l'
  end.

(** The filter predicate of the INPUT handler of [filter]:
    [x.name.toLowerCase().includes(val.toLowerCase())]. *)
Definition nameMatches (val name : string) : bool :=
  Js.includes (Js.toLowerCase name) (Js.toLowerCase val).

(** [items.filter((x) => x.name.toLowerCase().includes(val.toLowerCase()))],
    for vaults and for secrets. *)
Definition filterByName {A} (name : A -> string) (val : string) (items : list A) : list A :=
  List.filter (fun x => nameMatches val (name x)) items.

Section Handlers.
Context {widget : ListWidget}.

(** [list.setOptions(options)]. *)
Definition list_setOptions (options : list SelectOption.t) : M unit :=
  i ← read list_selectedIndex;
  list_options ::= options;;
  list_selectedIndex ::= keptIndex i (length options).

(** [list.setSelectedIndex(index)]. *)
Definition list_setSelectedIndex (index : nat) : M unit :=
  list_selectedIndex ::= index.

(** [list.getSelectedOption()]. *)
Definition list_getSelectedOption : M (option SelectOption.t) :=
  options ← read list_options;
  i ← read list_selectedIndex;
  mret (options !! i).

(** [details.setText(text, styled)]. *)
Definition details_setText (text : DetailsText) (styled : bool) : M unit :=
  details_text ::= text;;
  details_styled ::= styled.

(** [secretCache.set(name, v)]. *)
Definition secretCache_set (name : string) (v : option string) : M unit :=
  cache ← read secretCache;
  secretCache ::= <[name := v]> cache.

(** [secretCache.has(name)]. *)
Definition secretCache_has (name : string) : M bool :=
  cache ← read secretCache;
  mret (match cache !! name with Some _ => true | None => false end).

(** Stop the renderer and exit with [code]. *)
Definition quitClean (code : nat) : M unit := exited ::= Some code.

Definition setLeftTitle (title : string) : M unit := leftBox_title ::= title.

Definition setListOptionsFromVaults (items : list Vault.t) : M unit :=
  list_setOptions (map vaultOption items).

Definition setListOptionsFromSecrets (items : list SecretProperties.t) : M unit :=
  list_setOptions (map secretOption items).

Definition focusFilter : M unit :=
  focus ::= FocusTarget.filter;;
  filter_focused ::= true;;
  list_focused ::= false;;
  commandBar_focused ::= false.

Definition focusList : M unit :=
  focus ::= FocusTarget.list;;
  list_focused ::= true;;
  filter_focused ::= false;;
  commandBar_focused ::= false.

(** [vault] is [None] when a caller passes [currentVault!] while
    [currentVault] is null: reading its [name] then throws. *)
Definition selectVaultAndLoadSecrets (vault : option Vault.t) : M unit :=
  currentVault ::= vault;;
  match vault with
  | None => throw (TypeError "null is not an object (evaluating 'currentVault.name')")
  | Some v =>
      setLeftTitle ("Secrets • " ++ Vault.name v);;
      filter_value ::= "";;
      focusList;;
      state ::= ViewState.listSecrets;;
      details_setText (Text "Loading secrets...") false;;
      let client := {| vaultUrl := Vault.vaultUri v |} in
      secretClient ::= Some client;;
      secrets ← listPropertiesOfSecrets client;
      allSecrets ::= secrets;;
      filteredSecrets ::= secrets;;
      setListOptionsFromSecrets secrets;;
      list_setSelectedIndex 0;;
      details_setText
        (Text "Select a secret to view details. Press Enter on a secret to load its value.")
        false;;
      atSecretDetail ::= false
  end.

(** The get-or-fetch step shared by [loadAndShowSecret] and [getSecretValue]:
    [try { res = await getSecret(name); cache.set(name, res.value ?? null) }
     catch { cache.set(name, null) }].  An undefined [res.value] and null are
    both [None]. *)
Definition fetchIntoCache (client : SecretClient) (name : string) : M unit :=
  try_catch
    (res ← getSecret client name;
     secretCache_set name (value res))
    (fun _ => secretCache_set name None).

Definition loadAndShowSecret (sp : SecretProperties.t) : M unit :=
  client ← read secretClient;
  match client with
  | None => mret tt
  | Some client =>
      let name := SecretProperties.name sp in
      cached ← secretCache_has name;
      when (negb cached)
        (details_setText (Text "Fetching secret value...") false;;
         fetchIntoCache client name);;
      cache ← read secretCache;
      details_setText (SecretDetails sp (cache !! name)) true;;
      rightBox_title ::= "Details • " +:+ name;;
      atSecretDetail ::= true
  end.

Definition getSecretValue (sp : SecretProperties.t) : M (option string) :=
  client ← read secretClient;
  match client with
  | None => mret None
  | Some client =>
      let name := SecretProperties.name sp in
      cached ← secretCache_has name;
      when (negb cached) (fetchIntoCache client name);;
      cache ← read secretCache;
      mret (Js.nullish (cache !! name) None)
  end.

Definition setSecretValue (name value : string) : M unit :=
  client ← read secretClient;
  match client with
  | None => mret tt
  | Some client =>
      setSecret client name value;;
      secretCache_set name (Some value)
  end.

Definition goBackOneLayer : M unit :=
  mode ← read actionMode;
  detail ← read atSecretDetail;
  st ← read state;
  if ActionMode.eqb mode ActionMode.moveNewName then
    actionMode ::= ActionMode.moveTarget;;
    commandBar_visible ::= false;;
    state ::= ViewState.moveSelectTarget;;
    setLeftTitle "Target Vault";;
    fv ← read filteredVaults;
    setListOptionsFromVaults fv;;
    focusList
  else if (detail : bool) then
    atSecretDetail ::= false;;
    details_setText
      (Text "Select a secret to view details. Press Enter on a secret to load its value.")
      false;;
    rightBox_title ::= "Details"
  else if ViewState.eqb st ViewState.moveSelectTarget then
    state ::= ViewState.listSecrets;;
    cv ← read currentVault;
    setLeftTitle ("Secrets • " ++ Js.nullish (Vault.name <$> cv) "");;
    fs ← read filteredSecrets;
    setListOptionsFromSecrets fs;;
    list_setSelectedIndex 0;;
    focusList
  else if ViewState.eqb st ViewState.listSecrets then
    state ::= ViewState.selectVault;;
    currentVault ::= None;;
    secretClient ::= None;;
    allSecrets ::= [];;
    filteredSecrets ::= [];;
    details_setText (Text "") false;;
    setLeftTitle "Vaults";;
    fv ← read filteredVaults;
    setListOptionsFromVaults fv;;
    list_setSelectedIndex 0;;
    rightBox_title ::= "Details";;
    focusList
  else mret tt.

Definition openCommandBar : M unit :=
  focus ::= FocusTarget.command;;
  commandBar_title ::= "Command";;
  commandBar_value ::= "";;
  commandBar_visible ::= true;;
  commandBar_focused ::= true.

Definition closeCommandBar : M unit :=
  commandBar_visible ::= false;;
  commandBar_focused ::= false;;
  st ← read state;
  f ← read focus;
  when (ViewState.eqb st ViewState.selectVault || ViewState.eqb st ViewState.listSecrets)
    (if FocusTarget.eqb f FocusTarget.filter then focusFilter else focusList).

(** [getSecretValue] for one secret after the other. *)
Fixpoint getSecretValues (sps : list SecretProperties.t) : M (list (option string)) :=
  match sps with
  | [] => mret []
  | sp :: sps' =>
      v ← getSecretValue sp;
      vs ← getSecretValues sps';
      mret (v :: vs)
  end.

(** *** Submitting the command prompt

    The ENTER handler of [commandBar] is an if-chain of branches, one per
    action mode, followed by a common tail that resets the mode.  A branch
    either reaches the tail or leaves the handler with [return]. *)
Inductive Flow := Return | FallThrough.

(** [secretClient!] *)
Definition theSecretClient : M SecretClient :=
  client ← read secretClient;
  match client with
  | Some c => mret c
  | None => throw (TypeError "null is not an object (evaluating 'secretClient.setSecret')")
  end.

(** [commandBar.visible = true; commandBar.focus()]. *)
Definition promptVisible : M unit :=
  commandBar_visible ::= true;;
  commandBar_focused ::= true.

(** The branch for [actionMode === "editValue" && actionSecret]. *)
Definition submit_editValue (sec : SecretProperties.t) (cmd : string) : M Flow :=
  let newValue := cmd in
  setSecretValue (SecretProperties.name sec) newValue;;
  details_setText (Text "Secret updated.") false;;
  loadAndShowSecret sec;;
  mret FallThrough.

(** The branch for [actionMode === "rename" && actionSecret]. *)
Definition submit_rename (sec : SecretProperties.t) (cmd : string) : M Flow :=
  let newName := Js.trim cmd in
  when (Js.truthy newName && negb (String.eqb newName (SecretProperties.name sec)))
    (v ← getSecretValue sec;
     let currentValue := Js.nullish v "" in
     client ← theSecretClient;
     setSecret client newName currentValue;;
     try_catch
       (client ← theSecretClient; beginDeleteSecret client (SecretProperties.name sec))
       (fun _ => mret tt);;
     details_setText (Text ("Renamed to " ++ newName ++ ".")) false;;
     cv ← read currentVault;
     selectVaultAndLoadSecrets cv);;
  mret FallThrough.

(** The branch for [actionMode === "moveTarget" && actionSecret]. *)
Definition submit_moveTarget (sec : SecretProperties.t) (cmd : string) : M Flow :=
  let targetName := Js.toLowerCase (Js.trim cmd) in
  vs ← read allVaults;
  match find (fun v => String.eqb (Js.toLowerCase (Vault.name v)) targetName) vs with
  | Some targetVault =>
      moveTargetVault ::= Some targetVault;;
      actionMode ::= ActionMode.moveNewName;;
      commandBar_title ::=
        "Move • New name for " +:+ SecretProperties.name sec +:+ " @ " +:+ Vault.name targetVault;;
      commandBar_value ::= SecretProperties.name sec;;
      promptVisible;;
      mret Return
  | None =>
      details_setText (Text ("Vault not found: " ++ cmd)) false;;
      mret FallThrough
  end.

(** The branch for
    [actionMode === "moveNewName" && actionSecret && moveTargetVault]. *)
Definition submit_moveNewName (sec : SecretProperties.t) (target : Vault.t) (cmd : string)
  : M Flow :=
  let newName := Js.trim cmd in
  v ← getSecretValue sec;
  let value := Js.nullish v "" in
  let targetClient := {| vaultUrl := Vault.vaultUri target |} in
  setSecret targetClient (Js.or_else newName (SecretProperties.name sec)) value;;
  details_setText
    (Text ("Copied to vault " ++ Vault.name target ++ " as "
           ++ Js.or_else newName (SecretProperties.name sec) ++ ".")) false;;
  (* Do not delete from source *)
  cv ← read currentVault;
  selectVaultAndLoadSecrets cv;;
  mret FallThrough.

(** The branch for [actionMode === "createName"]. *)
Definition submit_createName (cmd : string) : M Flow :=
  let name := Js.trim cmd in
  if negb (Js.truthy name) then
    details_setText (Text "Name cannot be empty.") false;;
    mret FallThrough
  else
    createNewSecretName ::= Some name;;
    actionMode ::= ActionMode.createValue;;
    commandBar_title ::= "Create • value for " +:+ name;;
    commandBar_value ::= "";;
    promptVisible;;
    mret Return.

(** The branch for [actionMode === "createValue" && createNewSecretName]. *)
Definition submit_createValue (newSecretName : string) (cmd : string) : M Flow :=
  let value := cmd in
  client ← theSecretClient;
  setSecret client newSecretName value;;
  secretCache_set newSecretName (Some value);;
  details_setText (Text ("Created secret " ++ newSecretName ++ ".")) false;;
  let createdName := newSecretName in
  createNewSecretName ::= None;;
  cv ← read currentVault;
  selectVaultAndLoadSecrets cv;;
  (* Select the newly created secret and show details *)
  fs ← read filteredSecrets;
  match findIndex (fun s => String.eqb (SecretProperties.name s) createdName) fs with
  | Some idx =>
      list_setSelectedIndex idx;;
      match fs !! idx with
      | Some s => loadAndShowSecret s
      | None => mret tt
      end
  | None => mret tt
  end;;
  mret FallThrough.

(** The last [else]: the text is a bare command. *)
Definition submit_command (cmd : string) : M Flow :=
  let trimmed := Js.trim cmd in
  when (String.eqb trimmed "q" || String.eqb trimmed "quit") (quitClean 0);;
  mret FallThrough.

(** The ENTER handler of [commandBar]. *)
Definition commandBar_ENTER (val : string) : M unit :=
  let cmd := val in
  mode ← read actionMode;
  sec ← read actionSecret;
  target ← read moveTargetVault;
  newSecretName ← read createNewSecretName;
  flow ←
    match mode, sec with
    | ActionMode.editValue, Some s => submit_editValue s cmd
    | ActionMode.rename, Some s => submit_rename s cmd
    | ActionMode.moveTarget, Some s => submit_moveTarget s cmd
    | ActionMode.moveNewName, Some s =>
        match target with
        | Some t => submit_moveNewName s t cmd
        | None => submit_command cmd
        end
    | ActionMode.createName, _ => submit_createName cmd
    | ActionMode.createValue, _ =>
        match newSecretName with
        | Some n => if Js.truthy n then submit_createValue n cmd else submit_command cmd
        | None => submit_command cmd
        end
    | _, _ => submit_command cmd
    end;
  match flow with
  | Return => mret tt
  | FallThrough =>
      actionMode ::= ActionMode.none;;
      actionSecret ::= None;;
      closeCommandBar
  end.

(** *** The other widget events *)

(** The INPUT handler of [filter]. *)
Definition filter_INPUT (val : string) : M unit :=
  st ← read state;
  match st with
  | ViewState.selectVault =>
      vs ← read allVaults;
      filteredVaults ::= filterByName Vault.name val vs;;
      fv ← read filteredVaults;
      setListOptionsFromVaults fv
  | ViewState.listSecrets =>
      ss ← read allSecrets;
      filteredSecrets ::= filterByName SecretProperties.name val ss;;
      fs ← read filteredSecrets;
      setListOptionsFromSecrets fs
  | ViewState.moveSelectTarget =>
      vs ← read allVaults;
      filteredVaults ::= filterByName Vault.name val vs;;
      fv ← read filteredVaults;
      setListOptionsFromVaults fv
  end.

(** The SELECTION_CHANGED handler of [list]. *)
Definition list_SELECTION_CHANGED (selected : option SelectOption.t) : M unit :=
  f ← read focus;
  st ← read state;
  if negb (FocusTarget.eqb f FocusTarget.list) then mret tt
  else
    match st, selected with
    | ViewState.listSecrets, Some sel =>
        details_setText (SecretPreview (asSecret (SelectOption.value sel))) true
    | _, _ => mret tt
    end.

(** A list option of which the handlers need the vault. *)
Definition vaultOf (v : OptionValue) : M Vault.t :=
  match asVault v with
  | Some x => mret x
  | None => throw (TypeError "the selected option is not a vault")
  end.

(** Select the target vault, then prompt for the new name: the block shared
    by ITEM_SELECTED and by ENTER in the filter. *)
Definition promptMoveNewName (v : OptionValue) : M unit :=
  targetVault ← vaultOf v;
  moveTargetVault ::= Some targetVault;;
  actionMode ::= ActionMode.moveNewName;;
  src ← read moveSourceSecret;
  commandBar_title ::=
    "Move • New name for " +:+ Js.nullish (SecretProperties.name <$> src) ""
    +:+ " @ " +:+ Vault.name targetVault;;
  commandBar_value ::= Js.nullish (SecretProperties.name <$> src) "";;
  promptVisible.

(** What ITEM_SELECTED and ENTER in the filter do with the option, by view
    state. *)
Definition openSelection (sel : SelectOption.t) : M unit :=
  st ← read state;
  match st with
  | ViewState.selectVault =>
      v ← vaultOf (SelectOption.value sel);
      selectVaultAndLoadSecrets (Some v);;
      focusList
  | ViewState.listSecrets =>
      loadAndShowSecret (asSecret (SelectOption.value sel));;
      focusList
  | ViewState.moveSelectTarget =>
      promptMoveNewName (SelectOption.value sel)
  end.

(** The ITEM_SELECTED handler of [list]. *)
Definition list_ITEM_SELECTED (selected : option SelectOption.t) : M unit :=
  match selected with
  | None => mret tt
  | Some sel =>
      f ← read focus;
      if negb (FocusTarget.eqb f FocusTarget.list) then mret tt
      else openSelection sel
  end.

(** ENTER from the filter acts like opening the current selection. *)
Definition filter_ENTER : M unit :=
  visible ← read commandBar_visible;
  if (visible : bool) then mret tt
  else
    current ← list_getSelectedOption;
    match current with
    | None => mret tt
    | Some cur => openSelection cur
    end.

(** *** Global key handling *)

(** Key [c] in the detail view: copy to the clipboard. *)
Definition copySecret (sp : SecretProperties.t) : M unit :=
  v ← getSecretValue sp;
  let val := Js.nullish v "" in
  available ← read pbcopy;
  if (available : bool) then
    clipboard ::= Some val;;
    details_setText (Text "Secret copied to clipboard.") false
  else details_setText (Text "Failed to copy to clipboard.") false.

(** Key [e] in the detail view. *)
Definition startEdit (sp : SecretProperties.t) : M unit :=
  v ← getSecretValue sp;
  let currentVal := Js.nullish v "" in
  actionMode ::= ActionMode.editValue;;
  actionSecret ::= Some sp;;
  commandBar_title ::= "Edit value • " +:+ SecretProperties.name sp;;
  commandBar_value ::= currentVal;;
  promptVisible.

(** Key [r] in the detail view. *)
Definition startRename (sp : SecretProperties.t) : M unit :=
  actionMode ::= ActionMode.rename;;
  actionSecret ::= Some sp;;
  commandBar_title ::= "Rename • " +:+ SecretProperties.name sp +:+ " →";;
  commandBar_value ::= "";;
  promptVisible.

(** Key [m] in the detail view: enter move target selection. *)
Definition startMove (sp : SecretProperties.t) : M unit :=
  actionMode ::= ActionMode.moveTarget;;
  actionSecret ::= Some sp;;
  moveSourceSecret ::= Some sp;;
  moveTargetVault ::= None;;
  state ::= ViewState.moveSelectTarget;;
  setLeftTitle "Target Vault";;
  filter_value ::= "";;
  vs ← read allVaults;
  filteredVaults ::= vs;;
  setListOptionsFromVaults vs;;
  list_setSelectedIndex 0;;
  focusList;;
  details_setText (Text ("Select target vault for " ++ SecretProperties.name sp)) false;;
  rightBox_title ::= "Move • " +:+ SecretProperties.name sp.

(** Key [n] in the secrets view. *)
Definition startCreate : M unit :=
  actionMode ::= ActionMode.createName;;
  createNewSecretName ::= None;;
  commandBar_title ::= "Create • secret name";;
  commandBar_value ::= "";;
  promptVisible.

(** The global keypress handler; [name] is [key.name]. *)
Definition keypress (name : string) : M unit :=
  if String.eqb name "/" then focusFilter
  else if String.eqb name ":" then openCommandBar
  else if String.eqb name "tab" then
    f ← read focus;
    if FocusTarget.eqb f FocusTarget.filter then focusList else focusFilter
  else if String.eqb name "escape" then
    visible ← read commandBar_visible;
    f ← read focus;
    if (visible : bool) then closeCommandBar
    else if FocusTarget.eqb f FocusTarget.filter then focusList
    else goBackOneLayer
  else
    st ← read state;
    f ← read focus;
    detail ← read atSecretDetail;
    selected ← list_getSelectedOption;
    let inList :=
      ViewState.eqb st ViewState.listSecrets && FocusTarget.eqb f FocusTarget.list in
    let sp := asSecret <$> (SelectOption.value <$> selected) in
    match (if inList && detail then sp else None) with
    | Some sp =>
        if String.eqb name "c" then copySecret sp
        else if String.eqb name "e" then startEdit sp
        else if String.eqb name "r" then startRename sp
        else if String.eqb name "m" then startMove sp
        else if inList && String.eqb name "n" then startCreate
        else when (String.eqb name "b") goBackOneLayer
    | None =>
        if inList && String.eqb name "n" then startCreate
        else when (String.eqb name "b") goBackOneLayer
    end.

(** *** Start-up *)

(** The variables as [main] declares them. *)
Definition initialVars : Vars :=
  {| state := ViewState.selectVault; focus := FocusTarget.list;
     allVaults := []; filteredVaults := [];
     secretClient := None; currentVault := None;
     secretCache := ∅; allSecrets := []; filteredSecrets := [];
     atSecretDetail := false;
     actionMode := ActionMode.none; actionSecret := None;
     moveTargetVault := None; moveSourceSecret := None;
     createNewSecretName := None |}.

(** The widgets as [main] creates them. *)
Definition initialUI : UI :=
  {| leftBox_title := "Vaults"; rightBox_title := "Details";
     filter_value := ""; filter_focused := false;
     list_options := []; list_selectedIndex := 0; list_focused := false;
     details_text := Text ""; details_styled := false;
     commandBar_title := "Command"; commandBar_value := "";
     commandBar_visible := false; commandBar_focused := false |}.

(** The initial data load, given what [getVaultsAllSubscriptions] returned
    ([inl]) or the message of the error it threw ([inr]). *)
Definition loadVaults (discovered : list Vault.t + string) : M unit :=
  details_setText
    (Text "Loading Key Vaults from Azure CLI across all subscriptions...") false;;
  match discovered with
  | inl vs =>
      allVaults ::= vs;;
      filteredVaults ::= vs;;
      setListOptionsFromVaults vs;;
      list_setSelectedIndex 0;;
      details_setText
        (Text "Select a Key Vault on the left, then browse secrets. Use filter to narrow results.")
        false
  | inr message =>
      details_setText (Text ("Failed to load Key Vaults." ++ String "010" message)) false
  end;;
  focusList.

(** *** Events *)

Inductive Event :=
  | KeyPress (name : string)
  | CommandEnter (val : string)
  | FilterInput (val : string)
  | FilterEnter
  | ListSelectionChanged (selected : option SelectOption.t)
  | ListItemSelected (selected : option SelectOption.t).

(** An input widget holds the text when it emits INPUT or ENTER for it. *)
Definition handle (e : Event) : M unit :=
  match e with
  | KeyPress name => keypress name
  | CommandEnter val => commandBar_value ::= val;; commandBar_ENTER val
  | FilterInput val => filter_value ::= val;; filter_INPUT val
  | FilterEnter => filter_ENTER
  | ListSelectionChanged selected => list_SELECTION_CHANGED selected
  | ListItemSelected selected => list_ITEM_SELECTED selected
  end.

(** Handle the events one after the other. *)
Fixpoint run (events : list Event) : M unit :=
  match events with
  | [] => mret tt
  | e :: events' => handle e;; run events'
  end.

End Handlers.

(** ** Observations used in the statements *)

Definition isDelete (c : RemoteCall) : bool :=
  match c with BeginDeleteSecret _ _ => true | _ => false end.

Definition isSet (c : RemoteCall) : bool :=
  match c with SetSecret _ _ _ => true | _ => false end.

Definition isGet (c : RemoteCall) : bool :=
  match c with GetSecret _ _ => true | _ => false end.

(** What a fetch of a secret yields for the cache: null when the service
    refuses the request or the vault has no such secret. *)
Definition fetched (w : World) (c : SecretClient) (name : string) : option string :=
  if unavailable w (calls w) (GetSecret (vaultUrl c) name) then None
  else lookupSecret w (vaultUrl c) name.


(** The condition under which the ENTER handler of the prompt takes the
    branch of the current action mode: the mode is set and the variables
    that its branch tests are non-null (for [createValue]: non-empty). *)
Definition modeReady (v : Vars) : bool :=
  match actionMode v, actionSecret v with
  | ActionMode.editValue, Some _ => true
  | ActionMode.rename, Some _ => true
  | ActionMode.moveTarget, Some _ => true
  | ActionMode.moveNewName, Some _ =>
      match moveTargetVault v with Some _ => true | None => false end
  | ActionMode.createName, _ => true
  | ActionMode.createValue, _ =>
      match createNewSecretName v with Some n => Js.truthy n | None => false end
  | _, _ => false
  end.


(** The text is the bare command that quits. *)
Definition isQuit (cmd : string) : bool :=
  String.eqb (Js.trim cmd) "q" || String.eqb (Js.trim cmd) "quit".

(** ** Example data: three vaults, two of which hold a secret "db" *)

Module Example.

Definition alpha : Vault.t :=
  Vault.mk "alpha" "https://alpha.vault.azure.net" "id-alpha" (Some "westeurope").
Definition alps : Vault.t :=
  Vault.mk "alps" "https://alps.vault.azure.net" "id-alps" None.
Definition beta : Vault.t :=
  Vault.mk "beta" "https://beta.vault.azure.net" "id-beta" (Some "northeurope").

Definition db : SecretProperties.t := propertiesOf "db".

(** A service that refuses the requests selected by [refused]. *)
Definition service (refused : RemoteCall -> bool) : World :=
  {| vaults :=
       <[Vault.vaultUri alpha := <["db" := "a-secret"]> ∅]>
         (<[Vault.vaultUri alps := ∅]>
            (<[Vault.vaultUri beta := <["db" := "b-secret"]> ∅]> ∅));
     calls := [];
     unavailable := fun _ c => refused c;
     pbcopy := true;
     clipboard := None;
     exited := None |}.

Definition reliable : RemoteCall -> bool := fun _ => false.

(** The application after start-up and the given events. *)
Definition after (refused : RemoteCall -> bool) (events : list Event) : App :=
  final
    ((loadVaults (widget := clampIndex) (inl [alpha; alps; beta]);;
      run (widget := clampIndex) events)
       {| vars := initialVars; ui := initialUI; world := service refused |}).

(** Select vault alpha, then open its secret "db". *)
Definition openDb : list Event :=
  [ListItemSelected (Some (vaultOption alpha)); ListItemSelected (Some (secretOption db))].

(** ... then start a move and pick vault beta from the list. *)
Definition moveToBeta : list Event :=
  openDb ++ [KeyPress "m"; ListItemSelected (Some (vaultOption beta))].

(** ... or start a move and type a vault name that does not exist. *)
Definition moveToNowhere : list Event :=
  openDb ++ [KeyPress "m"; KeyPress ":"; CommandEnter "nosuch"].

(** ... and then pick vault beta from the list after all. *)
Definition moveToNowhereThenBeta : list Event :=
  moveToNowhere ++ [KeyPress "tab"; KeyPress "tab"; ListItemSelected (Some (vaultOption beta))].

End Example.

(** ** ASCII text *)

(** Every character of [s] is an ASCII character.  On such text [Js.trim],
    [Js.toLowerCase] and the test for white space are the JavaScript ones,
    and the length of the Rocq string is the [length] of the JavaScript
    string. *)
Fixpoint isAscii (s : string) : bool :=
  match s with
  | EmptyString => true
  | String a s' => (N_of_ascii a <? 128)%N && isAscii s'
  end.

(** ** Observations on events and on sequences of events *)

(** The application after start-up in world [w], given what
    [getVaultsAllSubscriptions] returned or threw. *)
Definition startup {widget : ListWidget} (w : World) (discovered : list Vault.t + string)
  : App :=
  final (loadVaults discovered {| vars := initialVars; ui := initialUI; world := w |}).

(** The application after the handlers of [events] have run one after the
    other from [st], each to its end, whether it returned or threw: every
    awaited request of a handler is answered before the next event is
    handled.  Handlers that overlap at an [await] are not described. *)
Fixpoint play {widget : ListWidget} (events : list Event) (st : App) : App :=
  match events with
  | [] => st
  | e :: events' => play events' (final (handle e st))
  end.

(** The event is a submission of the command prompt. *)
Definition isSubmit (e : Event) : bool :=
  match e with CommandEnter _ => true | _ => false end.

(** The event is the key [c]. *)
Definition isCopyKey (e : Event) : bool :=
  match e with KeyPress name => String.eqb name "c" | _ => false end.

(** The requests sent between state [st] and the later state [s']. *)
Definition requested (st s' : App) : list RemoteCall :=
  drop (length (calls (world st))) (calls (world s')).

(** The names of the secrets that the requests in [l] fetch. *)
Definition fetchedNames (l : list RemoteCall) : list string :=
  flat_map (fun c => match c with GetSecret _ n => [n] | _ => [] end) l.

(** The filtered projections are taken from the full collections. *)
Definition projectionsOk (v : Vars) : Prop :=
  filteredVaults v `sublist_of` allVaults v /\
  filteredSecrets v `sublist_of` allSecrets v.

(** The client, when there is one, is the client of the current vault. *)
Definition clientOk (v : Vars) : Prop :=
  match currentVault v, secretClient v with
  | Some x, Some c => vaultUrl c = Vault.vaultUri x
  | None, None => True
  | _, _ => False
  end.

(** What the requests [new] that an event adds to the log can be, when the
    event takes state [st] to state [s']. *)
Definition requestsOk (e : Event) (st s' : App) (new : list RemoteCall) : Prop :=
  (isSubmit e = false -> Forall (fun r => isSet r = false /\ isDelete r = false) new) /\
  (forall url n,
      In (BeginDeleteSecret url n) new ->
      exists val sec v,
        e = CommandEnter val /\
        actionMode (vars st) = ActionMode.rename /\
        actionSecret (vars st) = Some sec /\
        n = SecretProperties.name sec /\
        Js.trim val <> n /\
        lookupSecret (world s') url (Js.trim val) = Some v) /\
  NoDup (fetchedNames new) /\
  (forall n, In n (fetchedNames new) ->
             secretCache (vars st) !! n = None /\ is_Some (secretCache (vars s') !! n)).

(** What one event can do, from state [st] to state [s']. *)
Definition effects (e : Event) (st s' : App) : Prop :=
  (exists new, calls (world s') = calls (world st) ++ new /\ requestsOk e st s' new) /\
  (isSubmit e = false ->
   vaults (world s') = vaults (world st) /\ exited (world s') = exited (world st)) /\
  (isCopyKey e = false -> clipboard (world s') = clipboard (world st)) /\
  (forall k, is_Some (secretCache (vars st) !! k) -> is_Some (secretCache (vars s') !! k)) /\
  (projectionsOk (vars st) -> projectionsOk (vars s')) /\
  (clientOk (vars st) -> clientOk (vars s')) /\
  allVaults (vars s') = allVaults (vars st).

(** ** Running a computation by continuations

    [runs m s K E]: from state [s], [m] returns a value and a state that
    satisfy [K], or throws an error, in a state, that satisfy [E]. *)
Definition runs {A} (m : M A) (s : App)
    (K : A -> App -> Prop) (E : Error -> App -> Prop) : Prop :=
  match m s with
  | Fulfilled x s' => K x s'
  | Rejected e s' => E e s'
  end.

(** ** Vault discovery: [getVaultsAllSubscriptions] *)

(** What an [az] command ends with: its exit code and its standard output,
    here as the value that [JSON.parse] makes of it (of an empty output: the
    empty array). *)
Record ShellOutput (A : Type) := { exitCode : Z; stdout : A }.
Arguments exitCode {A} _.
Arguments stdout {A} _.

(** What [getVaultsAllSubscriptions] throws: the error of the shell for a
    command that ended with one of the given exit codes, or an error with a
    message of the code's own. *)
Inductive DiscoveryError :=
  | ShellError (exitCodes : list Z)
  | Failure (message : string).

(** [await $`...`.quiet()].  The shell of the runtime rejects the promise of
    a command that ends with a non-zero exit code, as the code does not ask
    for [nothrow]; otherwise the await yields the output. *)
Definition awaited {A} (r : ShellOutput A) : ShellOutput A + DiscoveryError :=
  if (exitCode r =? 0)%Z then inl r else inr (ShellError [exitCode r]).

(** [await Promise.all(promises)] for the promises of commands: it yields
    the outputs when every command ended with exit code 0, and is rejected
    otherwise, with the error of the command that failed first, which is one
    of those that failed. *)
Definition awaitedAll {A} (rs : list (ShellOutput A))
  : list (ShellOutput A) + DiscoveryError :=
  match List.filter (fun r => negb (exitCode r =? 0)%Z) rs with
  | [] => inl rs
  | failed => inr (ShellError (map exitCode failed))
  end.

(** An element of the output of [az account list]. *)
Module Subscription.
Record t := mk { id : string }.
End Subscription.

(** An element of the output of [az keyvault list]; [vaultUri] is
    [properties?.vaultUri]. *)
Module RawVault.
Record t := mk
    { name : string; vaultUri : option string; id : string; location : option string }.
End RawVault.

(** [String.prototype.localeCompare] depends on the locale of the process:
    it is a parameter of the development. *)
Class Collation := localeCompare : string -> string -> Z.

(** The element of [mapped] for a listed vault. *)
Definition toVault (v : RawVault.t) : Vault.t :=
  {| Vault.name := RawVault.name v;
     Vault.vaultUri :=
       Js.nullish (RawVault.vaultUri v) ("https://" +:+ RawVault.name v +:+ ".vault.azure.net");
     Vault.id := RawVault.id v;
     Vault.location := RawVault.location v |}.

(** [for (const r of results) if (r.exitCode === 0) all.push(...arr)]. *)
Definition collect (results : list (ShellOutput (list RawVault.t))) : list RawVault.t :=
  flat_map (fun r => if (exitCode r =? 0)%Z then stdout r else []) results.

(** [mapped.filter(v => { if (seen.has(v.id)) return false; seen.add(v.id);
    return true })], from the set [seen]. *)
Fixpoint dedupById (seen : gset string) (l : list Vault.t) : list Vault.t :=
  match l with
  | [] => []
  | v :: l' =>
      if bool_decide (Vault.id v ∈ seen) then dedupById seen l'
      else v :: dedupById ({[Vault.id v]} ∪ seen) l'
  end.

(** [dedup.sort((a, b) => a.name.localeCompare(b.name))].  The sort of an
    array is stable; for a comparison that orders the names consistently its
    result is the one of the insertion sort below. *)
Fixpoint insertByName {collation : Collation} (v : Vault.t) (l : list Vault.t) : list Vault.t :=
  match l with
  | [] => [v]
  | x :: l' =>
      if (localeCompare (Vault.name v) (Vault.name x) <=? 0)%Z then v :: x :: l'
      else x :: insertByName v l'
  end.

Definition sortByName {collation : Collation} (l : list Vault.t) : list Vault.t :=
  foldr insertByName [] l.

(** [getVaultsAllSubscriptions()], given what [az account list] ends with
    and, by subscription id, what [az keyvault list] ends with. *)
Definition getVaultsAllSubscriptions {collation : Collation}
    (accountList : ShellOutput (list Subscription.t))
    (keyvaultList : string -> ShellOutput (list RawVault.t))
  : list Vault.t + DiscoveryError :=
  match awaited accountList with
  | inr e => inr e
  | inl accountsCmd =>
      if negb (exitCode accountsCmd =? 0)%Z
      then inr (Failure "Failed to list Azure subscriptions. Run 'az login'.")
      else
        let subs := stdout accountsCmd in
        match subs with
        | [] => inl []
        | _ =>
            let listPromises := map (fun s => keyvaultList (Subscription.id s)) subs in
            match awaitedAll listPromises with
            | inr e => inr e
            | inl results =>
                let all := collect results in
                let mapped := map toVault all in
                let dedup := dedupById ∅ mapped in
                inl (sortByName dedup)
            end
        end
  end.

(** [a] is not after [b] in the order of the names. *)
Definition nameLe {collation : Collation} (a b : Vault.t) : Prop :=
  (localeCompare (Vault.name a) (Vault.name b) <= 0)%Z.

(** Example data for the discovery: two subscriptions that both list the
    vault "alpha" and a third one without vaults; in [keyvaultsDown] the
    listing of the third one fails.  Names are compared by length. *)
Module Discovery.

Definition byLength : Collation :=
  fun a b => (Z.of_nat (String.length a) - Z.of_nat (String.length b))%Z.

Definition rawOf (v : Vault.t) : RawVault.t :=
  RawVault.mk (Vault.name v) (Some (Vault.vaultUri v)) (Vault.id v) (Vault.location v).

Definition accounts : ShellOutput (list Subscription.t) :=
  {| exitCode := 0;
     stdout := [Subscription.mk "sub-1"; Subscription.mk "sub-2"; Subscription.mk "sub-3"] |}.

Definition keyvaults (subscription : string) : ShellOutput (list RawVault.t) :=
  if String.eqb subscription "sub-1"
  then {| exitCode := 0; stdout := [rawOf Example.alpha; rawOf Example.beta] |}
  else if String.eqb subscription "sub-2"
  then {| exitCode := 0;
          stdout := [RawVault.mk "alps" None "id-alps" None; rawOf Example.alpha] |}
  else {| exitCode := 0; stdout := [] |}.

Definition keyvaultsDown (subscription : string) : ShellOutput (list RawVault.t) :=
  if String.eqb subscription "sub-3" then {| exitCode := 1; stdout := [] |}
  else keyvaults subscription.

End Discovery.

(** ** Layout: [applyLayout] *)

(** Position and size of a widget, in terminal cells. *)
Module Box.
Record t := mk { x : Z; y : Z; width : Z; height : Z }.
End Box.

(** What [applyLayout] sets: the width of the header and the boxes of the
    other widgets. *)
Module Layout.
Record t := mk
    { header_width : Z;
      leftBox : Box.t;
      rightBox : Box.t;
      filter : Box.t;
      list : Box.t;
      details : Box.t;
      commandBar : Box.t }.
End Layout.

(** [applyLayout(w, h)], with [commandBar.visible] as an argument.
    [scaled w] stands for [Math.floor(w * 0.45)], a floating-point product
    that is left open. *)
Definition applyLayout (scaled : Z -> Z) (commandBarVisible : bool) (w h : Z) : Layout.t :=
  (let minLeft := 30 in
  let maxLeft := Z.max minLeft (Z.min (scaled w) (w - 50)) in
  let leftWidth := Z.max minLeft maxLeft in
  let topY := 3 + (if commandBarVisible then 3 else 0) in
  let leftHeight := h - topY in
  let leftBox := Box.mk 0 topY leftWidth leftHeight in
  let rightBox := Box.mk leftWidth topY (Z.max 1 (w - leftWidth)) leftHeight in
  let filter :=
    Box.mk (Box.x leftBox + 1) (Box.y leftBox + 1) (Z.max 1 (Box.width leftBox - 2)) 3 in
  let listTop := Box.y filter + 4 in
  let listHeight := Z.max 3 (Box.height leftBox - (listTop - Box.y leftBox) - 1) in
  let list := Box.mk (Box.x leftBox + 1) listTop (Z.max 1 (Box.width leftBox - 2)) listHeight in
  let details :=
    Box.mk (Box.x rightBox + 1) (Box.y rightBox + 1)
      (Z.max 1 (Box.width rightBox - 2)) (Z.max 1 (Box.height rightBox - 2)) in
  let commandBar := Box.mk 0 3 w 3 in
  Layout.mk w leftBox rightBox filter list details commandBar)%Z.

(** [inner] lies within [outer], one cell away from its edges. *)
Definition insideBorder (inner outer : Box.t) : Prop :=
  (Box.x outer + 1 <= Box.x inner /\
   Box.x inner + Box.width inner <= Box.x outer + Box.width outer - 1 /\
   Box.y outer + 1 <= Box.y inner /\
   Box.y inner + Box.height inner <= Box.y outer + Box.height outer - 1)%Z.

(** ** The detail pane: [TextBlockElement] *)

(** [s.split("\n")]. *)
Fixpoint splitLines (s : string) : list string :=
  match s with
  | EmptyString => [EmptyString]
  | String a s' =>
      if Ascii.eqb a "010" then EmptyString :: splitLines s'
      else
        match splitLines s' with
        | l :: ls => String a l :: ls
        | [] => [String a EmptyString]
        end
  end.

(** [s.split(/\s+/)]: the pieces between the runs of white space, with an
    empty piece before a leading and after a trailing run. *)
Fixpoint splitWords (s : string) : list string :=
  match s with
  | EmptyString => [EmptyString]
  | String a s' =>
      if Ascii.is_space a then
        match s' with
        | String b _ => if Ascii.is_space b then splitWords s' else EmptyString :: splitWords s'
        | EmptyString => EmptyString :: splitWords s'
        end
      else
        match splitWords s' with
        | p :: ps => String a p :: ps
        | [] => [String a EmptyString]
        end
  end.

Definition isUpper (c : ascii) : bool :=
  let n := N_of_ascii c in ((65 <=? n) && (n <=? 90))%N.

Definition isLower (c : ascii) : bool :=
  let n := N_of_ascii c in ((97 <=? n) && (n <=? 122))%N.

(** The rest of a match of [/^[A-Z][a-zA-Z\s]*:/] after the first
    character. *)
Fixpoint headerRest (s : string) : bool :=
  match s with
  | EmptyString => false
  | String a s' =>
      if Ascii.eqb a ":" then true
      else if isUpper a || isLower a || Ascii.is_space a then headerRest s'
      else false
  end.

(** [line.match(/^[A-Z][a-zA-Z\s]*:/) || line === "Value:"]. *)
Definition isHeader (line : string) : bool :=
  match line with
  | String a s' => isUpper a && headerRest s'
  | EmptyString => false
  end
  || String.eqb line "Value:".

(** [s.replace(":", "")]: without the first colon. *)
Fixpoint removeColon (s : string) : string :=
  match s with
  | EmptyString => EmptyString
  | String a s' => if Ascii.eqb a ":" then s' else String a (removeColon s')
  end.

Definition upperChar (c : ascii) : ascii :=
  if isLower c then ascii_of_N (N_of_ascii c - 32) else c.

(** [String.prototype.toUpperCase], on the letters a-z. *)
Fixpoint toUpperCase (s : string) : string :=
  match s with
  | String a s' => String (upperChar a) (toUpperCase s')
  | EmptyString => EmptyString
  end.

Module TextBlock.
Local Open Scope Z_scope.

(** The colours of the text block: the blue of the headers, the grey of the
    placeholders, and the text colour of the element. *)
Inductive Color := HeaderBlue | Grey | TextColor.

(** A call on the frame buffer. *)
Inductive Draw :=
  | DrawText (text : string) (x y : Z) (color : Color)
  | RenderFont (text : string) (x y : Z).

(** The rows that a call draws on: the tiny font is two rows high. *)
Definition rows (d : Draw) : list Z :=
  match d with
  | DrawText _ _ y _ => [y]
  | RenderFont _ _ y => [y; y + 1]
  end.

Definition column (d : Draw) : Z :=
  match d with
  | DrawText _ x _ _ => x
  | RenderFont _ x _ => x
  end.

(** The colour of the regular content of [line]. *)
Definition lineColor (line : string) : Color :=
  if Js.includes line "(no value" || Js.includes line "(empty)"
     || Js.includes line "(disabled)"
  then Grey else TextColor.

Section Refresh.

(** Whether [renderFontToFrameBuffer] throws for a text. *)
Variable fontFails : string -> bool.

Variables (contentX contentWidth limit : Z).

(** The loop over the words of [line], from [current] and [currentY]; the
    result holds the calls made and the two variables when the loop is
    left. *)
Fixpoint wrapWords (line : string) (words : list string) (current : string) (currentY : Z)
  : list Draw * string * Z :=
  match words with
  | [] => ([], current, currentY)
  | word :: words' =>
      let testLine := current +:+ (if Js.truthy current then " " else "") +:+ word in
      if (contentWidth <? Z.of_nat (String.length testLine)) && Js.truthy current then
        let d := DrawText current contentX currentY (lineColor line) in
        if limit <=? currentY + 1 then ([d], word, currentY + 1)
        else
          let '(ds, current', y) := wrapWords line words' word (currentY + 1) in
          (d :: ds, current', y)
      else wrapWords line words' testLine currentY
  end.

(** The body of the loop over the lines: the calls made for [line], and
    [currentY] afterwards. *)
Definition refreshLine (useStyledHeader : bool) (line : string) (currentY : Z)
  : list Draw * Z :=
  if isHeader line && useStyledHeader && (currentY + 2 <? limit) then
    let headerText := toUpperCase (Js.trim (removeColon line)) in
    if fontFails headerText
    then ([DrawText line contentX currentY HeaderBlue], currentY + 1)
    else ([RenderFont headerText contentX currentY], currentY + 2)
  else if String.eqb (Js.trim line) "" || String.eqb line "Value:" then ([], currentY + 1)
  else
    let '(ds, current, y) := wrapWords line (splitWords line) "" currentY in
    if Js.truthy current && (y <? limit)
    then (ds ++ [DrawText current contentX y (lineColor line)], y + 1)
    else (ds, y).

(** The loop over the lines, from [currentY]. *)
Fixpoint refreshLines (useStyledHeader : bool) (lines : list string) (currentY : Z)
  : list Draw :=
  match lines with
  | [] => []
  | line :: lines' =>
      if currentY <? limit then
        let '(ds, y) := refreshLine useStyledHeader line currentY in
        ds ++ refreshLines useStyledHeader lines' y
      else []
  end.

End Refresh.

(** [refreshContent(contentX, contentY, contentWidth, contentHeight)] of an
    element with the given [text] and [useStyledHeader]: the calls it makes
    on the frame buffer, in order. *)
Definition refreshContent (fontFails : string -> bool) (hasFrameBuffer : bool)
    (text : string) (useStyledHeader : bool)
    (contentX contentY contentWidth contentHeight : Z) : list Draw :=
  if negb hasFrameBuffer || negb (Js.truthy text) then []
  else
    refreshLines fontFails contentX contentWidth (contentY + contentHeight)
      useStyledHeader (splitLines text) contentY.

(** The calls [ds] draw in column [x], on rows from [lo] up to but not
    including [hi], top down and no row twice. *)
Definition drawnWithin (x lo hi : Z) (ds : list Draw) : Prop :=
  Forall (fun d => column d = x) ds /\
  StronglySorted Z.lt (flat_map rows ds) /\
  Forall (fun r => lo <= r < hi) (flat_map rows ds).

(** The call [d] made for [line] is a header, or it draws a non-empty text
    that fits the width or is a single word of the line. *)
Definition wrapped (width : Z) (line : string) (d : Draw) : Prop :=
  match d with
  | DrawText t _ _ c =>
      c = HeaderBlue \/
      (t <> EmptyString /\
       (Z.of_nat (String.length t) <= width \/ In t (splitWords line)))
  | RenderFont _ _ _ => True
  end.

End TextBlock.


(** * Properties *)

(** ** Proof tools *)

(** Run a handler symbolically: unfold the handlers, the monad and the field
    updates, and reduce. *)
Ltac exec :=
  cbv beta iota zeta delta
    [lookupSecret mbind M_bind mret M_ret read assign when throw try_catch final request getSecret
     setSecret beginDeleteSecret listPropertiesOfSecrets set update part part_vars
     part_ui part_world ViewState.eqb FocusTarget.eqb ActionMode.eqb negb andb orb
     asSecret asVault vaultUrl value SelectOption.value setter_state setter_focus
     setter_allVaults setter_filteredVaults setter_secretClient setter_currentVault
     setter_secretCache setter_allSecrets setter_filteredSecrets setter_atSecretDetail
     setter_actionMode setter_actionSecret setter_moveTargetVault
     setter_moveSourceSecret setter_createNewSecretName setter_leftBox_title
     setter_rightBox_title setter_filter_value setter_filter_focused setter_list_options
     setter_list_selectedIndex setter_list_focused setter_details_text
     setter_details_styled setter_commandBar_title setter_commandBar_value
     setter_commandBar_visible setter_commandBar_focused setter_vaults setter_calls
     setter_unavailable setter_pbcopy setter_clipboard setter_exited setter_vars
     setter_ui setter_world set_state set_focus set_allVaults set_filteredVaults
     set_secretClient set_currentVault set_secretCache set_allSecrets
     set_filteredSecrets set_atSecretDetail set_actionMode set_actionSecret
     set_moveTargetVault set_moveSourceSecret set_createNewSecretName set_leftBox_title
     set_rightBox_title set_filter_value set_filter_focused set_list_options
     set_list_selectedIndex set_list_focused set_details_text set_details_styled
     set_commandBar_title set_commandBar_value set_commandBar_visible
     set_commandBar_focused set_vaults set_calls set_unavailable set_pbcopy
     set_clipboard set_exited set_vars set_ui set_world state focus allVaults
     filteredVaults secretClient currentVault secretCache allSecrets filteredSecrets
     atSecretDetail actionMode actionSecret moveTargetVault moveSourceSecret
     createNewSecretName leftBox_title rightBox_title filter_value filter_focused
     list_options list_selectedIndex list_focused details_text details_styled
     commandBar_title commandBar_value commandBar_visible commandBar_focused vaults
     calls unavailable pbcopy clipboard exited vars ui world list_setOptions
     list_setSelectedIndex list_getSelectedOption details_setText secretCache_set
     secretCache_has quitClean setLeftTitle setListOptionsFromVaults
     setListOptionsFromSecrets focusFilter focusList selectVaultAndLoadSecrets
     fetchIntoCache loadAndShowSecret getSecretValue setSecretValue goBackOneLayer
     openCommandBar closeCommandBar theSecretClient promptVisible submit_editValue
     submit_rename submit_moveTarget submit_moveNewName submit_createName
     submit_createValue submit_command commandBar_ENTER filter_INPUT
     list_SELECTION_CHANGED vaultOf promptMoveNewName openSelection list_ITEM_SELECTED
     filter_ENTER copySecret startEdit startRename startMove startCreate keypress
     loadVaults handle].

(** Split a state into its fields. *)
Ltac destruct_app st :=
  destruct st as
    [[state_ focus_ allVaults_ filteredVaults_ secretClient_ currentVault_ secretCache_
     allSecrets_ filteredSecrets_ atSecretDetail_ actionMode_ actionSecret_
     moveTargetVault_ moveSourceSecret_ createNewSecretName_] [leftBox_title_
     rightBox_title_ filter_value_ filter_focused_ list_options_ list_selectedIndex_
     list_focused_ details_text_ details_styled_ commandBar_title_ commandBar_value_
     commandBar_visible_ commandBar_focused_] [vaults_ calls_ unavailable_ pbcopy_
     clipboard_ exited_]];
  simpl in * |-; subst.

(** Keep the conclusion about the final state [s] folded while the run that
    leads to [s] is unfolded. *)
Ltac shield s :=
  pattern s; match goal with |- ?C s => let Q := fresh "Q" in set (Q := C) end.

(** Case analysis on what the symbolic run is stuck on. *)
Ltac split_stuck :=
  match goal with
  | |- context [match ?m !! ?k with _ => _ end] => destruct (m !! k) eqn:?
  | |- context [if ?u ?h ?c then _ else _] => is_var u; destruct (u h c) eqn:?
  | |- context [if Js.truthy ?s then _ else _] => destruct (Js.truthy s) eqn:?
  | |- context [if String.eqb ?a ?b then _ else _] => destruct (String.eqb a b) eqn:?
  | |- context [match findIndex ?p ?l with _ => _ end] => destruct (findIndex p l) eqn:?
  | |- context [match find ?p ?l with _ => _ end] => destruct (find p l) eqn:?
  | |- context [match ?o with Some _ => _ | None => _ end] => is_var o; destruct o
  | |- context [if ?b then _ else _] => is_var b; destruct b
  | |- context [match ?x with ViewState.selectVault => _ | _ => _ end] => is_var x; destruct x
  | |- context [match ?x with FocusTarget.list => _ | _ => _ end] => is_var x; destruct x
  end.


(** ** Strings *)

Section Strings.
Local Open Scope string_scope.

Lemma append_cons a s t : String a s ++ t = String a (s ++ t).
Proof. reflexivity. Qed.

Lemma startsWith_spec s t :
  Js.startsWith s t = true <-> exists post, s = t ++ post.
Proof.
  revert s; induction t as [|b t IH]; intros s; simpl.
  - split; [intros _; exists s; reflexivity | reflexivity].
  - destruct s as [|a s].
    + split; [discriminate | intros [post H]; discriminate].
    + destruct (Ascii.eqb_spec a b) as [->|Hne].
      * rewrite IH. split; intros [post H]; exists post.
        -- rewrite append_cons. congruence.
        -- rewrite append_cons in H. congruence.
      * split; [discriminate | intros [post H]; rewrite append_cons in H; congruence].
Qed.

Lemma includes_spec s t :
  Js.includes s t = true <-> exists pre post, s = pre ++ t ++ post.
Proof.
  induction s as [|a s IH]; simpl.
  - rewrite orb_false_r, startsWith_spec. split.
    + intros [post H]. exists "", post. exact H.
    + intros (pre & post & H). destruct pre; [exists post; exact H|discriminate].
  - rewrite orb_true_iff, startsWith_spec, IH. split.
    + intros [[post H]|(pre & post & H)].
      * exists "", post. exact H.
      * exists (String a pre), post. rewrite append_cons. congruence.
    + intros (pre & post & H). destruct pre as [|b pre].
      * left. exists post. exact H.
      * right. rewrite append_cons in H. exists pre, post. congruence.
Qed.

Lemma includes_empty s : Js.includes s "" = true.
Proof. destruct s; reflexivity. Qed.

Lemma nameMatches_empty name : nameMatches "" name = true.
Proof. unfold nameMatches. apply includes_empty. Qed.

Lemma lowerChar_idem c : Js.lowerChar (Js.lowerChar c) = Js.lowerChar c.
Proof. destruct c as [[] [] [] [] [] [] [] []]; reflexivity. Qed.

Lemma toLowerCase_idem s : Js.toLowerCase (Js.toLowerCase s) = Js.toLowerCase s.
Proof. induction s as [|a s IH]; simpl; [|rewrite lowerChar_idem, IH]; reflexivity. Qed.

End Strings.

(** ** The list filter *)

Section Filter.
Context {A : Type} (name : A -> string).

Lemma filterByName_idem val (items : list A) :
  filterByName name val (filterByName name val items) = filterByName name val items.
Proof.
  unfold filterByName. induction items as [|x items IH]; simpl; [reflexivity|].
  destruct (nameMatches val (name x)) eqn:E; simpl; rewrite ?E, IH; reflexivity.
Qed.

Lemma filterByName_empty (items : list A) : filterByName name "" items = items.
Proof.
  unfold filterByName. induction items as [|x items IH]; simpl; [reflexivity|].
  rewrite nameMatches_empty, IH. reflexivity.
Qed.

Lemma filterByName_In val (items : list A) x :
  In x (filterByName name val items) <-> In x items /\ nameMatches val (name x) = true.
Proof. unfold filterByName. apply filter_In. Qed.

End Filter.

Section FilterHandler.
Context {widget : ListWidget}.

(** What the INPUT handler of the filter does to the state. *)
Lemma filter_INPUT_spec (st : App) (val : string) :
  exists st',
    filter_INPUT val st = Fulfilled tt st' /\
    allVaults (vars st') = allVaults (vars st) /\
    allSecrets (vars st') = allSecrets (vars st) /\
    world st' = world st /\
    list_selectedIndex (ui st') =
      keptIndex (list_selectedIndex (ui st)) (length (list_options (ui st'))) /\
    match state (vars st) with
    | ViewState.listSecrets =>
        filteredSecrets (vars st') = filterByName SecretProperties.name val (allSecrets (vars st)) /\
        filteredVaults (vars st') = filteredVaults (vars st) /\
        list_options (ui st') = map secretOption (filteredSecrets (vars st'))
    | _ =>
        filteredVaults (vars st') = filterByName Vault.name val (allVaults (vars st)) /\
        filteredSecrets (vars st') = filteredSecrets (vars st) /\
        list_options (ui st') = map vaultOption (filteredVaults (vars st'))
    end.
Proof.
  destruct_app st. destruct state_; exec; eexists; repeat split.
Qed.

(** C7.  On ASCII text, the list filter keeps exactly the items whose name
    contains the query as a substring, name and query both taken in lower
    case; it keeps them in their order, item by item; queries that differ
    only in the case of their letters, and names that do, give the same
    result.  Filtering twice with the same query is filtering once; the
    empty query keeps every item; the INPUT handler of the filter computes
    the filtered collection from the full one and leaves the full
    collections as they are. *)
Theorem filter_is_case_insensitive_idempotent_and_pure :
  (forall (A : Type) (name : A -> string) val (S : list A) (x : A),
      isAscii val = true -> isAscii (name x) = true ->
      (In x (filterByName name val S) <->
       In x S /\
       exists pre post, Js.toLowerCase (name x) = (pre ++ Js.toLowerCase val ++ post)%string)) /\
  (forall (A : Type) (name : A -> string) val (S1 S2 : list A),
      filterByName name val (S1 ++ S2) = filterByName name val S1 ++ filterByName name val S2) /\
  (forall (A : Type) (name : A -> string) val (S : list A),
      filterByName name val S `sublist_of` S) /\
  (forall (A : Type) (name name' : A -> string) val val' (S : list A),
      isAscii val = true -> isAscii val' = true ->
      Forall (fun x => isAscii (name x) = true /\ isAscii (name' x) = true) S ->
      Js.toLowerCase val = Js.toLowerCase val' ->
      Forall (fun x => Js.toLowerCase (name x) = Js.toLowerCase (name' x)) S ->
      filterByName name val S = filterByName name' val' S) /\
  (forall (A : Type) (name : A -> string) val (S : list A),
      filterByName name val (filterByName name val S) = filterByName name val S) /\
  (forall (A : Type) (name : A -> string) (S : list A), filterByName name "" S = S) /\
  (forall (st : App) val,
      let st' := final (filter_INPUT val st) in
      filter_INPUT val st = Fulfilled tt st' /\
      allVaults (vars st') = allVaults (vars st) /\
      allSecrets (vars st') = allSecrets (vars st) /\
      (isAscii val = true ->
       match state (vars st) with
       | ViewState.listSecrets =>
           Forall (fun s => isAscii (SecretProperties.name s) = true) (allSecrets (vars st)) ->
           filteredSecrets (vars st') =
             filterByName SecretProperties.name val (allSecrets (vars st))
       | _ =>
           Forall (fun v => isAscii (Vault.name v) = true) (allVaults (vars st)) ->
           filteredVaults (vars st') = filterByName Vault.name val (allVaults (vars st))
       end)).
Proof.
  split; [|split; [|split; [|split; [|split; [|split]]]]].
  - intros A name val S x _ _. rewrite filterByName_In. unfold nameMatches.
    rewrite includes_spec. reflexivity.
  - intros A name val S1 S2. unfold filterByName. apply List.filter_app.
  - intros A name val S. unfold filterByName.
    induction S as [|x S IH]; simpl; [constructor|].
    destruct (nameMatches val (name x)); constructor; exact IH.
  - intros A name name' val val' S _ _ _ Hval Hnames. unfold filterByName, nameMatches.
    induction Hnames as [|x S Hx _ IH]; simpl; [reflexivity|].
    rewrite IH, Hx, Hval. reflexivity.
  - intros A name val S. apply filterByName_idem.
  - intros A name S. apply filterByName_empty.
  - intros st val. destruct (filter_INPUT_spec st val) as (st' & E & Hv & Hs & _ & _ & Hf).
    rewrite E. simpl. split; [reflexivity|]. split; [exact Hv|]. split; [exact Hs|].
    intros _. destruct (state (vars st)); intros _; tauto.
Qed.

(** The handler asks the list for new options and for nothing else: the
    selection index is the one the widget keeps. *)
Lemma filter_INPUT_selectedIndex (st : App) (val : string) :
  let st' := final (filter_INPUT val st) in
  list_selectedIndex (ui st') =
    keptIndex (list_selectedIndex (ui st)) (length (list_options (ui st'))).
Proof.
  destruct (filter_INPUT_spec st val) as (st' & E & _ & _ & _ & Hi & _).
  rewrite E. exact Hi.
Qed.

End FilterHandler.

(** C7, witness: the query "AL" on the three vaults of the example. *)
Lemma filter_is_case_insensitive_idempotent_and_pure_witness :
  filterByName Vault.name "AL" [Example.alpha; Example.alps; Example.beta]
    = [Example.alpha; Example.alps] /\
  In Example.alps
     (filterByName Vault.name "AL" [Example.alpha; Example.alps; Example.beta]) /\
  ~ In Example.beta
      (filterByName Vault.name "AL" [Example.alpha; Example.alps; Example.beta]) /\
  filterByName Vault.name "AL" [Example.alpha; Example.alps; Example.beta]
    = filterByName Vault.name "al" [Example.alpha; Example.alps; Example.beta].
Proof.
  split; [vm_compute; reflexivity|]. split; [|split].
  - apply (proj1 (filter_is_case_insensitive_idempotent_and_pure (widget := clampIndex))
             Vault.t Vault.name "AL" [Example.alpha; Example.alps; Example.beta]
             Example.alps); [reflexivity..|].
    split; [simpl; auto|]. exists "", "ps". reflexivity.
  - intros H.
    apply (proj1 (filter_is_case_insensitive_idempotent_and_pure (widget := clampIndex))
             Vault.t Vault.name "AL" [Example.alpha; Example.alps; Example.beta]
             Example.beta) in H; [|reflexivity..].
    destruct H as (_ & pre & post & H). vm_compute in H.
    destruct pre as [|a pre]; [discriminate|]. destruct pre as [|b pre]; [discriminate|].
    destruct pre as [|c pre]; [discriminate|]. destruct pre as [|d pre]; [discriminate|].
    destruct pre; discriminate.
  - apply (proj1 (proj2 (proj2 (proj2
             (filter_is_case_insensitive_idempotent_and_pure (widget := clampIndex)))))
             Vault.t Vault.name Vault.name "AL" "al");
      [reflexivity | reflexivity | repeat constructor | reflexivity | repeat constructor].
Defined.

(** C9.  With a list widget that keeps its selection index within range, a change
    of the filter text does not move the selection to the first match: with
    the second of three vaults selected, typing "al" leaves two matches and
    the second one selected. *)
Theorem filter_change_keeps_selected_index :
  let st := update (set list_selectedIndex 1) (Example.after Example.reliable []) in
  let st' := final (filter_INPUT (widget := clampIndex) "al" st) in
  map SelectOption.name (list_options (ui st)) = ["alpha"; "alps"; "beta"]%string /\
  map SelectOption.name (list_options (ui st')) = ["alpha"; "alps"]%string /\
  list_selectedIndex (ui st') = 1.
Proof. vm_compute. repeat split. Qed.

(** ** The secret cache *)

Section Cache.

Lemma getSecretValue_cached sp c x (st : App) :
  secretClient (vars st) = Some c ->
  secretCache (vars st) !! SecretProperties.name sp = Some x ->
  getSecretValue sp st = Fulfilled x st.
Proof.
  intros Hc Hx. destruct_app st. exec. rewrite Hx. exec. rewrite Hx. reflexivity.
Qed.

Lemma getSecretValue_fetch sp c (st : App) :
  secretClient (vars st) = Some c ->
  secretCache (vars st) !! SecretProperties.name sp = None ->
  exists st',
    getSecretValue sp st = Fulfilled (fetched (world st) c (SecretProperties.name sp)) st' /\
    secretClient (vars st') = Some c /\
    secretCache (vars st') =
      <[SecretProperties.name sp := fetched (world st) c (SecretProperties.name sp)]>
        (secretCache (vars st)).
Proof.
  intros Hc Hx. destruct_app st. destruct c as [url]. unfold fetched, lookupSecret.
  exec. rewrite Hx. exec.
  destruct (unavailable_ _ _) eqn:Hu; exec.
  - rewrite lookup_insert_eq. eexists; repeat split.
  - destruct (vaults_ !! url) as [m|] eqn:Hv; exec; simpl.
    + destruct (m !! SecretProperties.name sp) eqn:Hm; exec; rewrite lookup_insert_eq;
        eexists; repeat split.
    + rewrite lookup_insert_eq; eexists; repeat split.
Qed.

Lemma getSecretValue_total sp c (st : App) :
  secretClient (vars st) = Some c ->
  exists v st',
    getSecretValue sp st = Fulfilled v st' /\
    secretClient (vars st') = Some c /\
    secretCache (vars st') !! SecretProperties.name sp = Some v /\
    (forall k y, secretCache (vars st) !! k = Some y -> secretCache (vars st') !! k = Some y).
Proof.
  intros Hc. destruct (secretCache (vars st) !! SecretProperties.name sp) as [x|] eqn:Hx.
  - exists x, st. rewrite (getSecretValue_cached _ _ _ _ Hc Hx). auto.
  - destruct (getSecretValue_fetch sp c st Hc Hx) as (st' & -> & Hc' & Hcache).
    do 2 eexists. split; [reflexivity|]. split; [exact Hc'|]. rewrite Hcache. split.
    + apply lookup_insert_eq.
    + intros k y Hk. rewrite lookup_insert_ne; [exact Hk|]. congruence.
Qed.

Lemma getSecretValues_total sps c (st : App) :
  secretClient (vars st) = Some c ->
  exists vs st',
    getSecretValues sps st = Fulfilled vs st' /\
    secretClient (vars st') = Some c /\
    (forall k y, secretCache (vars st) !! k = Some y -> secretCache (vars st') !! k = Some y).
Proof.
  revert st; induction sps as [|sp sps IH]; intros st Hc.
  - exists [], st. auto.
  - destruct (getSecretValue_total sp c st Hc) as (v & s1 & E1 & Hc1 & _ & Hk1).
    destruct (IH s1 Hc1) as (vs & s2 & E2 & Hc2 & Hk2).
    exists (v :: vs), s2. split; [|split; [exact Hc2| intros; eauto]].
    simpl. unfold mbind, M_bind. rewrite E1, E2. reflexivity.
Qed.

(** Opening the detail view of a secret goes through the cache in the same
    way. *)
Lemma loadAndShowSecret_shows sp c (st : App) :
  secretClient (vars st) = Some c ->
  exists v st1,
    loadAndShowSecret sp st = Fulfilled tt st1 /\
    (secretClient (vars st1) = Some c /\
     secretCache (vars st1) !! SecretProperties.name sp = Some v /\
     details_text (ui st1) = SecretDetails sp (Some v) /\
     details_styled (ui st1) = true /\
     rightBox_title (ui st1) = ("Details • " +:+ SecretProperties.name sp)%string /\
     atSecretDetail (vars st1) = true) /\
    (forall x, secretCache (vars st) !! SecretProperties.name sp = Some x -> v = x) /\
    (secretCache (vars st) !! SecretProperties.name sp = None ->
     v = fetched (world st) c (SecretProperties.name sp)).
Proof.
  intros Hc. destruct_app st. destruct c as [url]. unfold fetched, lookupSecret.
  cbn [vars world secretCache calls unavailable vaults vaultUrl].
  destruct (secretCache_ !! SecretProperties.name sp) as [x|] eqn:Hx.
  - exists x. eexists. split; [exec; rewrite Hx; exec; rewrite Hx; reflexivity|].
    cbn [vars ui secretClient secretCache details_text details_styled rightBox_title
         atSecretDetail].
    repeat split; try assumption; congruence.
  - exec. rewrite Hx. exec.
    repeat (first [rewrite lookup_insert_eq | split_stuck]; exec);
      do 2 eexists; (split; [reflexivity|]); exec;
      (split; [rewrite ?lookup_insert_eq; repeat split|]);
      (split; [discriminate | intros _; first [reflexivity | simplify_eq; congruence]]).
Qed.

(** Once the detail view shows the cached value, opening it again changes
    nothing and sends no request. *)
Lemma loadAndShowSecret_idle sp c v (st : App) :
  secretClient (vars st) = Some c ->
  secretCache (vars st) !! SecretProperties.name sp = Some v ->
  details_text (ui st) = SecretDetails sp (Some v) ->
  details_styled (ui st) = true ->
  rightBox_title (ui st) = ("Details • " +:+ SecretProperties.name sp)%string ->
  atSecretDetail (vars st) = true ->
  loadAndShowSecret sp st = Fulfilled tt st.
Proof.
  intros Hc Hv Hd Hs Ht Ha. destruct_app st. exec. rewrite Hv. exec. rewrite Hv. reflexivity.
Qed.

(** C6.  With a vault selected, the first get for a secret returns a value
    and leaves it in the cache; a second get returns the same value and
    leaves the state, and so the list of requests sent, as it is; so does
    every later get, whatever other secrets are got in between.  When the
    cache has no entry and the fetch fails, the value is null and null (not
    the empty string) is what the cache then holds.  Opening the detail view
    of the secret shows that same value, and opening it again changes nothing
    and sends no request. *)
Theorem cache_get_memoizes (st : App) (c : SecretClient) (sp : SecretProperties.t) :
  secretClient (vars st) = Some c ->
  exists v st1,
    getSecretValue sp st = Fulfilled v st1 /\
    getSecretValue sp st1 = Fulfilled v st1 /\
    (forall sps, exists vs st2,
        getSecretValues sps st1 = Fulfilled vs st2 /\
        getSecretValue sp st2 = Fulfilled v st2) /\
    (secretCache (vars st) !! SecretProperties.name sp = None ->
     fetched (world st) c (SecretProperties.name sp) = None ->
     v = None /\ secretCache (vars st1) !! SecretProperties.name sp = Some None) /\
    (exists st1',
        loadAndShowSecret sp st = Fulfilled tt st1' /\
        details_text (ui st1') = SecretDetails sp (Some v) /\
        loadAndShowSecret sp st1' = Fulfilled tt st1' /\
        getSecretValue sp st1' = Fulfilled v st1').
Proof.
  intros Hc.
  destruct (getSecretValue_total sp c st Hc) as (v & st1 & E1 & Hc1 & Hv & _).
  exists v, st1. split; [exact E1|]. split; [|split; [|split]].
  - apply (getSecretValue_cached _ _ _ _ Hc1 Hv).
  - intros sps. destruct (getSecretValues_total sps c st1 Hc1) as (vs & st2 & E2 & Hc2 & Hk).
    exists vs, st2. split; [exact E2|]. apply (getSecretValue_cached _ _ _ _ Hc2 (Hk _ _ Hv)).
  - intros Hnone Hf.
    destruct (getSecretValue_fetch sp c st Hc Hnone) as (st' & E' & _ & _).
    rewrite E1 in E'. injection E' as -> ->. rewrite Hf in *. auto.
  - destruct (loadAndShowSecret_shows sp c st Hc)
      as (v' & st1' & L1 & (Hc' & Hv' & Hd & Hs & Ht & Ha) & Hcached & Hfetched).
    assert (v' = v) as ->.
    { destruct (secretCache (vars st) !! SecretProperties.name sp) as [x|] eqn:Hx.
      - rewrite (getSecretValue_cached _ _ _ _ Hc Hx) in E1. injection E1 as <- _.
        apply Hcached. reflexivity.
      - destruct (getSecretValue_fetch sp c st Hc Hx) as (st2 & E2 & _ & _).
        rewrite E1 in E2. injection E2 as -> _. apply Hfetched. reflexivity. }
    exists st1'. split; [exact L1|]. split; [exact Hd|]. split.
    + exact (loadAndShowSecret_idle sp c v st1' Hc' Hv' Hd Hs Ht Ha).
    + exact (getSecretValue_cached sp c v st1' Hc' Hv').
Qed.
End Cache.

(** C6, witness. *)
Lemma cache_get_memoizes_witness :
  (let st := Example.after Example.reliable [ListItemSelected (Some (vaultOption Example.alpha))] in
   secretClient (vars st) = Some {| vaultUrl := Vault.vaultUri Example.alpha |} /\
   exists st1,
     getSecretValue Example.db st = Fulfilled (Some "a-secret"%string) st1 /\
     getSecretValue Example.db st1 = Fulfilled (Some "a-secret"%string) st1) /\
  (let st := Example.after isGet [ListItemSelected (Some (vaultOption Example.alpha))] in
   exists st1,
     getSecretValue Example.db st = Fulfilled None st1 /\
     getSecretValue Example.db st1 = Fulfilled None st1 /\
     secretCache (vars st1) !! "db"%string = Some None).
Proof.
  split.
  - split; [vm_compute; reflexivity|].
    destruct (cache_get_memoizes
                (Example.after Example.reliable
                   [ListItemSelected (Some (vaultOption Example.alpha))])
                {| vaultUrl := Vault.vaultUri Example.alpha |} Example.db)
      as (v & st1 & E1 & E2 & _); [vm_compute; reflexivity|].
    exists st1. assert (Hv : v = Some "a-secret"%string).
    { vm_compute in E1. injection E1 as <- _. reflexivity. }
    rewrite <- Hv. split; assumption.
  - destruct (cache_get_memoizes
                (Example.after isGet [ListItemSelected (Some (vaultOption Example.alpha))])
                {| vaultUrl := Vault.vaultUri Example.alpha |} Example.db)
      as (v & st1 & E1 & E2 & _ & Hfail & _); [vm_compute; reflexivity|].
    destruct Hfail as [-> Hc]; [vm_compute; reflexivity..|].
    exists st1. repeat split; assumption.
Defined.

(** ** Back navigation and vault switches *)

Section Navigation.
Context {widget : ListWidget}.

Lemma goBackOneLayer_fulfilled (st : App) :
  goBackOneLayer st = Fulfilled tt (final (goBackOneLayer st)).
Proof.
  destruct_app st. destruct actionMode_, atSecretDetail_, state_; reflexivity.
Qed.

(** The back step from the plain secret list: the vault is left. *)
Lemma goBackOneLayer_leaves_vault (st : App) :
  actionMode (vars st) <> ActionMode.moveNewName ->
  atSecretDetail (vars st) = false ->
  state (vars st) = ViewState.listSecrets ->
  let st' := final (goBackOneLayer st) in
  state (vars st') = ViewState.selectVault /\
  currentVault (vars st') = None /\
  secretClient (vars st') = None /\
  allSecrets (vars st') = [] /\
  filteredSecrets (vars st') = [] /\
  list_options (ui st') = map vaultOption (filteredVaults (vars st)).
Proof.
  intros Hm Hd Hs. destruct_app st. destruct actionMode_; try congruence; exec; repeat split.
Qed.

(** C1.  As amended: no vault switch clears the secret cache.  Selecting a
    vault ([selectVaultAndLoadSecrets], whether or not the listing succeeds)
    and every back-navigation step ([goBackOneLayer], among them the step
    from the secret list to the vault selection) leave the cache mapping
    exactly as it was. *)
Theorem cache_is_kept_on_vault_switch (st : App) (vault : option Vault.t) :
  secretCache (vars (final (selectVaultAndLoadSecrets vault st))) = secretCache (vars st) /\
  secretCache (vars (final (goBackOneLayer st))) = secretCache (vars st).
Proof.
  destruct_app st. split.
  - destruct vault as [v|]; exec; [|reflexivity].
    destruct (unavailable_ _ _); exec; [reflexivity|].
    destruct (vaults_ !! _); reflexivity.
  - destruct actionMode_, atSecretDetail_, state_; reflexivity.
Qed.

(** C4.  As amended: from action mode MoveNewName, entered from a secret's
    detail view, the first back-navigation step returns to MoveTarget with
    the list showing the vaults again and the vault and secret collections
    untouched; the second step only turns the detail flag off, the view state
    stays MoveSelectTarget; the third step returns to view state ListSecrets,
    detail flag off, with the list showing the secrets. *)
Theorem back_from_moveNewName (st : App) :
  actionMode (vars st) = ActionMode.moveNewName ->
  atSecretDetail (vars st) = true ->
  exists s1 s2 s3,
    goBackOneLayer st = Fulfilled tt s1 /\
    goBackOneLayer s1 = Fulfilled tt s2 /\
    goBackOneLayer s2 = Fulfilled tt s3 /\
    (actionMode (vars s1) = ActionMode.moveTarget /\
     state (vars s1) = ViewState.moveSelectTarget /\
     list_options (ui s1) = map vaultOption (filteredVaults (vars st)) /\
     allVaults (vars s1) = allVaults (vars st) /\
     filteredVaults (vars s1) = filteredVaults (vars st) /\
     allSecrets (vars s1) = allSecrets (vars st) /\
     filteredSecrets (vars s1) = filteredSecrets (vars st) /\
     atSecretDetail (vars s1) = true) /\
    (atSecretDetail (vars s2) = false /\
     state (vars s2) = ViewState.moveSelectTarget /\
     actionMode (vars s2) = ActionMode.moveTarget /\
     list_options (ui s2) = list_options (ui s1)) /\
    (state (vars s3) = ViewState.listSecrets /\
     atSecretDetail (vars s3) = false /\
     list_options (ui s3) = map secretOption (filteredSecrets (vars st)) /\
     allSecrets (vars s3) = allSecrets (vars st) /\
     filteredSecrets (vars s3) = filteredSecrets (vars st)).
Proof.
  intros Hm Hd. destruct_app st.
  do 3 eexists. split; [exec; reflexivity|].
  split; [exec; reflexivity|]. split; [exec; reflexivity|].
  exec. repeat split.
Qed.

End Navigation.

Import Example.

(** C1, counterexample.  The value of "db" is fetched while vault alpha is
    active.  After going back to the vault selection the cache still holds
    it, and after selecting vault beta a get for "db" returns alpha's value
    without asking the service, although beta holds another value. *)
Lemma cache_survives_vault_switch :
  let back := after reliable (openDb ++ [KeyPress "b"; KeyPress "b"]) in
  let st := after reliable
    (openDb ++ [KeyPress "b"; KeyPress "b"; ListItemSelected (Some (vaultOption beta))]) in
  (state (vars back) = ViewState.selectVault /\
   currentVault (vars back) = None /\
   secretCache (vars back) !! "db"%string = Some (Some "a-secret"%string)) /\
  (currentVault (vars st) = Some beta /\
   lookupSecret (world st) (Vault.vaultUri beta) "db" = Some "b-secret"%string /\
   getSecretValue db st = Fulfilled (Some "a-secret"%string) st).
Proof. vm_compute. repeat split. Qed.

(** C4, witness. *)
Lemma back_from_moveNewName_witness :
  let st := after reliable moveToBeta in
  (actionMode (vars st) = ActionMode.moveNewName /\ atSecretDetail (vars st) = true) /\
  exists s1 s2 s3,
    goBackOneLayer (widget := clampIndex) st = Fulfilled tt s1 /\
    goBackOneLayer (widget := clampIndex) s1 = Fulfilled tt s2 /\
    goBackOneLayer (widget := clampIndex) s2 = Fulfilled tt s3 /\
    actionMode (vars s1) = ActionMode.moveTarget /\
    state (vars s2) = ViewState.moveSelectTarget /\
    state (vars s3) = ViewState.listSecrets.
Proof.
  split; [split; vm_compute; reflexivity|].
  destruct (back_from_moveNewName (widget := clampIndex) (after reliable moveToBeta))
    as (s1 & s2 & s3 & E1 & E2 & E3 & H1 & H2 & H3); [vm_compute; reflexivity..|].
  exists s1, s2, s3. repeat split; try assumption.
  - apply H1.
  - apply H2.
  - apply H3.
Defined.

(** C4, counterexample.  The move is started from the detail view of "db"
    and vault beta is picked: the action mode is MoveNewName.  After two
    back-navigation steps the view state is still MoveSelectTarget, not
    ListSecrets. *)
Lemma two_back_steps_stay_in_moveSelectTarget :
  let st := after reliable moveToBeta in
  let s2 := final (goBackOneLayer (widget := clampIndex)
                     (final (goBackOneLayer (widget := clampIndex) st))) in
  actionMode (vars st) = ActionMode.moveNewName /\
  atSecretDetail (vars st) = true /\
  state (vars s2) = ViewState.moveSelectTarget /\
  state (vars s2) <> ViewState.listSecrets /\
  atSecretDetail (vars s2) = false.
Proof. vm_compute. repeat split. discriminate. Qed.

(** ** Submitting the prompt *)

Section Prompt.
Context {widget : ListWidget}.




(** What the branch of MoveTarget does with a name that matches no vault:
    it reports the failure and reaches the common tail, which resets the
    action mode and its secret. *)
Lemma moveTarget_lookup_failure_resets (st : App) (cmd : string) (sec : SecretProperties.t) :
  actionMode (vars st) = ActionMode.moveTarget ->
  actionSecret (vars st) = Some sec ->
  find (fun v => String.eqb (Js.toLowerCase (Vault.name v)) (Js.toLowerCase (Js.trim cmd)))
       (allVaults (vars st)) = None ->
  exists st',
    commandBar_ENTER cmd st = Fulfilled tt st' /\
    details_text (ui st') = Text ("Vault not found: " ++ cmd) /\
    actionMode (vars st') = ActionMode.none /\
    actionSecret (vars st') = None /\
    state (vars st') = state (vars st) /\
    moveSourceSecret (vars st') = moveSourceSecret (vars st) /\
    commandBar_visible (ui st') = false.
Proof.
  intros Hm Hs Hf. destruct_app st. exec. rewrite Hf. exec.
  destruct state_; exec; try destruct focus_; eexists; split; try reflexivity; repeat split.
Qed.

End Prompt.



(** C3.  A move of "db" is started and the name of a vault that does not
    exist is submitted at the prompt.  "Vault not found" is reported, but the
    action mode is reset to None and its secret is dropped, while the view
    stays in MoveSelectTarget.  When a vault is then picked from the list and
    a new name is submitted, no secret is copied: no request is sent. *)
Theorem moveTarget_lookup_failure_leaves_the_move :
  let st := after reliable (openDb ++ [KeyPress "m"; KeyPress ":"]) in
  let st' := final (commandBar_ENTER (widget := clampIndex) "nosuch" st) in
  let later := after reliable (moveToNowhereThenBeta ++ [CommandEnter "copy"]) in
  (actionMode (vars st) = ActionMode.moveTarget /\ actionSecret (vars st) = Some db) /\
  (details_text (ui st') = Text "Vault not found: nosuch" /\
   actionMode (vars st') = ActionMode.none /\
   actionSecret (vars st') = None /\
   state (vars st') = ViewState.moveSelectTarget) /\
  (calls (world later) = calls (world st) /\
   lookupSecret (world later) (Vault.vaultUri beta) "copy" = None).
Proof. vm_compute. repeat split. Qed.

Section Quit.
Context {widget : ListWidget}.

(** The branch of an action mode never quits. *)
Lemma ready_mode_keeps_running (st : App) (cmd : string) :
  modeReady (vars st) = true ->
  exited (world (final (commandBar_ENTER cmd st))) = exited (world st).
Proof.
  intros Hready. destruct_app st. unfold modeReady in Hready. simpl in Hready.
  destruct (commandBar_ENTER _ _) as [[] s'|e s'] eqn:Hrun; cbn [final world exited];
    shield s'; revert Hrun;
    (destruct actionMode_; try discriminate;
     try (destruct actionSecret_ as [sec|]; [|discriminate]);
     try (destruct moveTargetVault_ as [target|]; [|discriminate]);
     try (destruct createNewSecretName_ as [n|]; [|discriminate]);
     exec; try rewrite Hready; exec;
     repeat (split_stuck; exec); intros Hrun; try discriminate Hrun;
     first [injection Hrun as <- <- | injection Hrun as <-]; subst Q; reflexivity).
Qed.

(** C8.  As amended: with no action mode active, submitting the prompt with
    trimmed text "q" or "quit" terminates the application with exit code 0,
    and any other text is ignored without error (no request, no message, no
    change of view state or collections); the latter is stated for text of
    ASCII characters, on which [Js.trim] is the trim of the code.  With an
    action mode active and the variables its branch tests set ([modeReady]),
    the same text is taken by that branch and does not quit; in EditValue it
    is the value of the set request. *)
Theorem quit_only_without_active_mode (st : App) (cmd : string) :
  (actionMode (vars st) = ActionMode.none -> isQuit cmd = true ->
   exists st',
     commandBar_ENTER cmd st = Fulfilled tt st' /\ exited (world st') = Some 0) /\
  (modeReady (vars st) = true ->
   exited (world (final (commandBar_ENTER cmd st))) = exited (world st)) /\
  (forall sec c,
     actionMode (vars st) = ActionMode.editValue ->
     actionSecret (vars st) = Some sec ->
     secretClient (vars st) = Some c ->
     exists rest,
       calls (world (final (commandBar_ENTER cmd st))) =
         calls (world st) ++ SetSecret (vaultUrl c) (SecretProperties.name sec) cmd :: rest) /\
  (actionMode (vars st) = ActionMode.none -> isAscii cmd = true -> isQuit cmd = false ->
   exists st',
     commandBar_ENTER cmd st = Fulfilled tt st' /\
     world st' = world st /\
     details_text (ui st') = details_text (ui st) /\
     actionMode (vars st') = ActionMode.none /\
     state (vars st') = state (vars st) /\
     secretCache (vars st') = secretCache (vars st) /\
     allVaults (vars st') = allVaults (vars st) /\
     filteredVaults (vars st') = filteredVaults (vars st) /\
     allSecrets (vars st') = allSecrets (vars st) /\
     filteredSecrets (vars st') = filteredSecrets (vars st)).
Proof.
  split; [|split; [|split]].
  - intros Hm Hq. destruct_app st. unfold isQuit in Hq.
    exec. destruct (String.eqb (Js.trim cmd) "q"), (String.eqb (Js.trim cmd) "quit");
      try discriminate; destruct state_, focus_; exec; eexists; split; reflexivity.
  - apply ready_mode_keeps_running.
  - intros sec c Hm Hs Hc. destruct_app st. destruct c as [url].
    exec. destruct (unavailable_ _ _) eqn:Hu; exec.
    + eexists. reflexivity.
    + destruct state_, focus_; repeat (split_stuck; exec);
        rewrite <- ?app_assoc; simpl; eexists; reflexivity.
  - intros Hm _ Hq. destruct_app st. unfold isQuit in Hq.
    exec. destruct (String.eqb (Js.trim cmd) "q"), (String.eqb (Js.trim cmd) "quit");
      try discriminate; destruct state_, focus_; exec; eexists; repeat split.
Qed.

End Quit.

(** C8, witness. *)
Lemma quit_only_without_active_mode_witness :
  (exists st',
     commandBar_ENTER (widget := clampIndex) " quit " (after reliable (openDb ++ [KeyPress ":"]))
       = Fulfilled tt st' /\ exited (world st') = Some 0) /\
  (let st := after reliable (openDb ++ [KeyPress "e"]) in
   modeReady (vars st) = true /\
   exited (world (final (commandBar_ENTER (widget := clampIndex) "q" st))) = None /\
   exists rest,
     calls (world (final (commandBar_ENTER (widget := clampIndex) "q" st))) =
       calls (world st) ++ SetSecret (Vault.vaultUri alpha) "db" "q" :: rest) /\
  (isAscii "help" = true /\
   exists st',
     commandBar_ENTER (widget := clampIndex) "help" (after reliable (openDb ++ [KeyPress ":"]))
       = Fulfilled tt st' /\ exited (world st') = None).
Proof.
  split; [|split].
  - apply (proj1 (quit_only_without_active_mode (widget := clampIndex)
                    (after reliable (openDb ++ [KeyPress ":"])) " quit "));
      vm_compute; reflexivity.
  - split; [vm_compute; reflexivity|]. split.
    + rewrite (proj1 (proj2 (quit_only_without_active_mode (widget := clampIndex)
                               (after reliable (openDb ++ [KeyPress "e"])) "q")));
        vm_compute; reflexivity.
    + apply (proj1 (proj2 (proj2 (quit_only_without_active_mode (widget := clampIndex)
                                     (after reliable (openDb ++ [KeyPress "e"])) "q")))
               db {| vaultUrl := Vault.vaultUri alpha |});
        vm_compute; reflexivity.
  - split; [reflexivity|].
    destruct (proj2 (proj2 (proj2 (quit_only_without_active_mode (widget := clampIndex)
                                     (after reliable (openDb ++ [KeyPress ":"])) "help"))))
      as (st' & E & Hw & _); [vm_compute; reflexivity..|].
    exists st'. split; [exact E|]. rewrite Hw. vm_compute. reflexivity.
Defined.

(** C8, counterexample.  After a failed vault lookup the action mode has lost
    its secret.  A vault picked from the list then sets action mode
    MoveNewName and opens the prompt; submitting "q" there is not taken as
    the new name: the application exits with code 0. *)
Lemma quit_while_moveNewName_is_set :
  let st := after reliable moveToNowhereThenBeta in
  let st' := final (commandBar_ENTER (widget := clampIndex) "q" st) in
  actionMode (vars st) = ActionMode.moveNewName /\
  actionMode (vars st) <> ActionMode.none /\
  commandBar_visible (ui st) = true /\
  exited (world st) = None /\
  exited (world st') = Some 0.
Proof. vm_compute. repeat split. discriminate. Qed.

(** ** Moving and renaming a secret *)

Section Move.
Context {widget : ListWidget}.




End Move.




(** * Further properties *)

(** ** Stepping through a handler

    The rules below run a handler one operation at a time, with the rest of
    the handler kept as a continuation. *)

Section Runs.
Context {A B : Type}.
Implicit Types (s : App) (E : Error -> App -> Prop).

Lemma runs_outcome (m : M A) s (P : Outcome A -> Prop) :
  runs m s (fun x s' => P (Fulfilled x s')) (fun e s' => P (Rejected e s')) -> P (m s).
Proof. unfold runs. destruct (m s); auto. Qed.

Lemma runs_final (m : M A) s (Q : App -> Prop) :
  runs m s (fun _ s' => Q s') (fun _ s' => Q s') -> Q (final (m s)).
Proof. unfold runs. destruct (m s); auto. Qed.

Lemma runs_ret (x : A) s (K : A -> App -> Prop) E : K x s -> runs (mret x) s K E.
Proof. auto. Qed.

Lemma runs_bind (m : M A) (k : A -> M B) s (K : B -> App -> Prop) E :
  runs m s (fun x s' => runs (k x) s' K E) E -> runs (m ≫= k) s K E.
Proof. unfold runs, mbind, M_bind. destruct (m s); auto. Qed.

Lemma runs_throw (e : Error) s (K : A -> App -> Prop) E : E e s -> runs (throw e) s K E.
Proof. auto. Qed.

Lemma runs_try_catch (m : M A) (h : Error -> M A) s (K : A -> App -> Prop) E :
  runs m s K (fun e s' => runs (h e) s' K E) -> runs (try_catch m h) s K E.
Proof. unfold runs, try_catch. destruct (m s); auto. Qed.

End Runs.

Lemma runs_read {R T} `{Part R} (proj : R -> T) s (K : T -> App -> Prop) E :
  K (proj (part s)) s -> runs (read proj) s K E.
Proof. auto. Qed.

Lemma runs_assign {R T} `{Part R} (proj : R -> T) `{!Setter proj} (x : T) s
    (K : unit -> App -> Prop) E :
  K tt (update (set proj x) s) -> runs (assign proj x) s K E.
Proof. auto. Qed.

Lemma runs_request (c : RemoteCall) s (K : unit -> App -> Prop) E :
  (if unavailable (world s) (calls (world s)) c
   then E (RestError c) (update (set calls (calls (world s) ++ [c])) s)
   else K tt (update (set calls (calls (world s) ++ [c])) s)) ->
  runs (request c) s K E.
Proof. unfold runs, request. destruct (unavailable _ _ _); auto. Qed.

(** Reduce the field updates and the tests on enumerations in [t]. *)
Ltac data t :=
  let t1 := eval cbv beta iota zeta delta
    [set update part part_vars part_ui part_world ViewState.eqb FocusTarget.eqb
     ActionMode.eqb negb andb orb fmap option_fmap option_map Js.nullish setter_state setter_focus setter_allVaults
     setter_filteredVaults setter_secretClient setter_currentVault setter_secretCache
     setter_allSecrets setter_filteredSecrets setter_atSecretDetail setter_actionMode
     setter_actionSecret setter_moveTargetVault setter_moveSourceSecret
     setter_createNewSecretName setter_leftBox_title setter_rightBox_title
     setter_filter_value setter_filter_focused setter_list_options
     setter_list_selectedIndex setter_list_focused setter_details_text
     setter_details_styled setter_commandBar_title setter_commandBar_value
     setter_commandBar_visible setter_commandBar_focused setter_vaults setter_calls
     setter_unavailable setter_pbcopy setter_clipboard setter_exited setter_vars
     setter_ui setter_world set_state set_focus set_allVaults set_filteredVaults
     set_secretClient set_currentVault set_secretCache set_allSecrets
     set_filteredSecrets set_atSecretDetail set_actionMode set_actionSecret
     set_moveTargetVault set_moveSourceSecret set_createNewSecretName set_leftBox_title
     set_rightBox_title set_filter_value set_filter_focused set_list_options
     set_list_selectedIndex set_list_focused set_details_text set_details_styled
     set_commandBar_title set_commandBar_value set_commandBar_visible
     set_commandBar_focused set_vaults set_calls set_unavailable set_pbcopy
     set_clipboard set_exited set_vars set_ui set_world state focus allVaults
     filteredVaults secretClient currentVault secretCache allSecrets filteredSecrets
     atSecretDetail actionMode actionSecret moveTargetVault moveSourceSecret
     createNewSecretName leftBox_title rightBox_title filter_value filter_focused
     list_options list_selectedIndex list_focused details_text details_styled
     commandBar_title commandBar_value commandBar_visible commandBar_focused vaults
     calls unavailable pbcopy clipboard exited vars ui world]
  in t in
  eval cbn [vaultUrl value SelectOption.value asSecret asVault vaultOption secretOption]
    in t1.

(** The head constant of an application. *)
Ltac head_of t :=
  lazymatch t with
  | ?f _ => head_of f
  | _ => t
  end.

(** Decide a stuck test: by a hypothesis about it, or by cases; a test that
    is itself a case distinction is decided from the inside. *)
Ltac decide_on x :=
  lazymatch x with
  | match ?y with _ => _ end => decide_on y
  | _ =>
      first
        [ match goal with H : x = _ |- _ => rewrite H end
        | lazymatch x with
          | String.eqb _ _ =>
              let v := eval vm_compute in x in
              lazymatch v with
              | true => change x with true
              | false => change x with false
              end
          end
        | lazymatch x with
          | ?u ?h ?c =>
              match goal with H : forall h' c', u h' c' = _ |- _ => rewrite (H h c) end
          end
        | is_var x; destruct x
        | destruct x eqn:? ]
  end.

(** Use what is known from the tests made so far about the parts of [t]. *)
Ltac recall_for t :=
  repeat match goal with
         | H : ?l = _ |- _ => lazymatch t with context [l] => rewrite H end
         end.

Ltac recall :=
  repeat match goal with
         | H : ?l = _ |- context [?l] => rewrite H
         end.

(** Look up in a map after an insertion. *)
Ltac simplify_lookups :=
  repeat first
    [ rewrite lookup_insert_eq
    | rewrite lookup_insert_ne
        by first [ apply String.eqb_neq; assumption
                 | apply not_eq_sym, String.eqb_neq; assumption ] ].

(** One step of a run. *)
Ltac step :=
  cbv beta;
  lazymatch goal with
  | |- runs (assign _ ?x) _ _ _ => recall_for x
  | |- runs (request ?c) _ _ _ => recall_for c
  | |- runs (mret ?x) _ _ _ => recall_for x
  | _ => idtac
  end;
  lazymatch goal with
  | |- runs (mbind _ _) _ _ _ => apply runs_bind
  | |- runs (mret _) _ _ _ => apply runs_ret
  | |- runs (throw _) _ _ _ => apply runs_throw
  | |- runs (try_catch _ _) _ _ _ => apply runs_try_catch
  | |- runs (read ?p) ?s ?K _ =>
      let v := data constr:(p (part s)) in
      change (K v s)
  | |- runs (assign ?p ?x) ?s ?K _ =>
      let s1 := data constr:(update (set p x) s) in
      change (K tt s1)
  | |- runs (request ?c) ?s ?K ?E =>
      let t := data constr:(unavailable (world s) (calls (world s)) c) in
      let s1 := data constr:(update (set calls (calls (world s) ++ [c])) s) in
      apply runs_request;
      change (if t then E (RestError c) s1 else K tt s1)
  | |- runs (match ?x with _ => _ end) _ _ _ =>
      let x' := data x in
      change x with x';
      first
        [ progress cbv iota
        | lazymatch x' with
          | context [<[_:=_]> _ !! _] => progress simplify_lookups
          end
        | decide_on x'; cbv iota ]
  | |- runs (let _ := _ in _) _ _ _ => cbv zeta
  | |- runs ?m _ _ _ =>
      let h := head_of m in
      let m' := eval cbv delta [h] in m in
      change m with m'
  | |- match ?x with _ => _ end =>
      let x' := data x in
      change x with x';
      first
        [ progress cbv iota
        | lazymatch x' with
          | context [<[_:=_]> _ !! _] => progress simplify_lookups
          end
        | decide_on x'; cbv iota ]
  end.

(** Run to the end of every path. *)
Ltac run_all := repeat step; cbv beta; recall.

(** Start the run of [m] from [s] for a property of its outcome. *)
Ltac start_outcome m s :=
  pattern (m s); apply runs_outcome.

(** Start the run of [m] from [st] for a property of the final state. *)
Ltac start_final :=
  lazymatch goal with
  | |- ?Q (final (?m ?s)) => apply (runs_final m s Q)
  | |- ?Q ?a (final (?m ?s)) => apply (runs_final m s (Q a))
  | |- ?Q ?a ?b (final (?m ?s)) => apply (runs_final m s (Q a b))
  end.

(** ** What an event can and cannot do *)

Lemma filterByName_sublist {A} (name : A -> string) val (items : list A) :
  filterByName name val items `sublist_of` items.
Proof.
  unfold filterByName. induction items as [|x items IH]; simpl; [constructor|].
  destruct (nameMatches val (name x)); constructor; exact IH.
Qed.

Lemma insert_keeps_entries {V} (m : gmap string V) (j k : string) (x : V) :
  is_Some (m !! k) -> is_Some (<[j := x]> m !! k).
Proof.
  intros H. destruct (decide (j = k)) as [->|Hne].
  - rewrite lookup_insert_eq. eauto.
  - rewrite lookup_insert_ne; auto.
Qed.

Lemma insert_has_entry {V} (m : gmap string V) (j k : string) (x : V) :
  j = k \/ is_Some (m !! k) -> is_Some (<[j := x]> m !! k).
Proof.
  intros [->|H]; [rewrite lookup_insert_eq; eauto | apply insert_keeps_entries, H].
Qed.

Lemma lookup_None_before_insert {V} (m : gmap string V) (j k : string) (x : V) :
  <[j := x]> m !! k = None -> m !! k = None.
Proof. intros H. apply lookup_insert_None in H. tauto. Qed.

Lemma requested_extension (st s' : App) (new : list RemoteCall) :
  calls (world s') = calls (world st) ++ new -> requested st s' = new.
Proof. intros H. unfold requested. rewrite H. apply drop_app_length. Qed.

(** The secrets that the service lists for a vault holding [secrets]. *)
Lemma listing_names (secrets : gmap string string) :
  map SecretProperties.name (map propertiesOf (map fst (map_to_list secrets)))
  = map fst (map_to_list secrets).
Proof. rewrite map_map. apply map_id. Qed.

Lemma listing_lookup (secrets : gmap string string) (i : nat) (s : SecretProperties.t) :
  map propertiesOf (map fst (map_to_list secrets)) !! i = Some s ->
  s = propertiesOf (SecretProperties.name s) /\ is_Some (secrets !! SecretProperties.name s).
Proof.
  rewrite list_lookup_fmap. intros H. apply fmap_Some in H as (k & Hk & ->).
  split; [reflexivity|]. simpl.
  rewrite list_lookup_fmap in Hk. apply fmap_Some in Hk as ([k' v] & Hkv & ->).
  apply list_elem_of_lookup_2, elem_of_map_to_list in Hkv. simpl. eauto.
Qed.

Lemma listing_has (secrets : gmap string string) (n : string) :
  is_Some (secrets !! n) ->
  In (propertiesOf n) (map propertiesOf (map fst (map_to_list secrets))).
Proof.
  intros [v Hv]. apply in_map, list_elem_of_In, list_elem_of_fmap.
  exists (n, v). split; [reflexivity|]. apply elem_of_map_to_list, Hv.
Qed.

(** The requests of a path, as an extension of the log. *)
Ltac log_extension :=
  rewrite <- ?app_assoc; eexists; split;
  [ first [ reflexivity | symmetry; apply app_nil_r ] | ].

(** The secret written before a delete request is still there afterwards. *)
Ltac renamed_is_kept :=
  unfold lookupSecret; cbn [vaults];
  rewrite ?lookup_insert_eq;
  try (rewrite lookup_delete_ne by (apply not_eq_sym, String.eqb_neq; assumption));
  rewrite ?lookup_insert_eq; reflexivity.

(** A fetched name was not cached before and is cached afterwards. *)
Ltac fetched_once :=
  split;
  [ first [ assumption
          | repeat match goal with
                   | H : <[_ := _]> _ !! _ = None |- _ =>
                       apply lookup_None_before_insert in H
                   end; assumption ]
  | repeat first [ apply insert_has_entry; left; reflexivity
                 | apply insert_keeps_entries ] ].

Ltac solve_requests :=
  split;
  [ intros Hs; first [ discriminate Hs | repeat constructor ]
  | split;
    [ intros ? ? Hin; simpl in Hin;
      repeat (destruct Hin as [Hin|Hin]; [ try discriminate Hin | ]);
      try contradiction;
      injection Hin as <- <-;
      eexists _, _, _; repeat split; try reflexivity;
      first [ apply String.eqb_neq; assumption | renamed_is_kept ]
    | split;
      [ simpl; repeat (apply NoDup_cons_2; [ apply not_elem_of_nil | ]); apply NoDup_nil_2
      | intros ? Hin; simpl in Hin;
        repeat (destruct Hin as [Hin|Hin]; [ subst; fetched_once | ]);
        contradiction ] ] ].

(** Close a path that returns: the final state is the one reached, and what
    is claimed of it holds by computation. *)
Ltac normalise := lazymatch goal with |- ?g => let g' := data g in change g' end.

Ltac by_computation :=
  normalise; simplify_lookups; rewrite ?insert_insert_eq, ?listing_names;
  repeat split; try reflexivity; try assumption;
  try (apply requested_extension; rewrite <- ?app_assoc; reflexivity).

Ltac returns := eexists; split; [ reflexivity | ]; by_computation.

Ltac solve_effects :=
  unfold effects, requestsOk, projectionsOk, clientOk;
  lazymatch goal with |- ?g => let g' := data g in change g' end;
  split;
  [ log_extension; solve_requests
  | split;
    [ intros Hs; first [ discriminate Hs | split; reflexivity ]
    | split;
      [ intros Hk; first [ reflexivity | simpl in Hk; congruence ]
      | split;
        [ intros k Hk; repeat apply insert_keeps_entries; exact Hk
        | split;
          [ intros [H1 H2]; split;
            first [ assumption | reflexivity | apply filterByName_sublist | constructor ]
          | split; [ intros Hc; first [ exact Hc | reflexivity | exact I ] | reflexivity ] ] ] ] ] ].


Section Effects.
Context {widget : ListWidget}.

Lemma handle_effects (e : Event) (st : App) : effects e st (final (handle e st)).
Proof.
  destruct_app st. start_final. destruct e; run_all.
  all: solve_effects.
Qed.

End Effects.

Section Sequences.
Context {widget : ListWidget}.

Lemma handle_requests (e : Event) (st : App) :
  calls (world (final (handle e st))) = calls (world st) ++ requested st (final (handle e st))
  /\ requestsOk e st (final (handle e st)) (requested st (final (handle e st))).
Proof.
  destruct (handle_effects e st) as [(new & Hnew & Hok) _].
  rewrite (requested_extension _ _ _ Hnew). auto.
Qed.

Lemma fetchedNames_app (l1 l2 : list RemoteCall) :
  fetchedNames (l1 ++ l2) = fetchedNames l1 ++ fetchedNames l2.
Proof. unfold fetchedNames. apply flat_map_app. Qed.

(** A property of the variables that every event keeps holds after any
    sequence of events. *)
Lemma play_keeps (P : App -> Prop) :
  (forall e st, P st -> P (final (handle e st))) ->
  forall events st, P st -> P (play events st).
Proof.
  intros Hstep events. induction events as [|e events IH]; intros st H; simpl; auto.
Qed.

Lemma startup_ok (w : World) (discovered : list Vault.t + string) :
  projectionsOk (vars (startup w discovered)) /\ clientOk (vars (startup w discovered)).
Proof.
  unfold startup.
  apply (runs_final (loadVaults discovered) _
           (fun s => projectionsOk (vars s) /\ clientOk (vars s))).
  destruct w. run_all; unfold projectionsOk, clientOk; simpl; repeat split; reflexivity.
Qed.

(** X1: after start-up and any sequence of events, the filtered vault list
    is a sublist of the full vault list, and the filtered secret list a
    sublist of the full secret list. *)
Theorem filtered_lists_are_projections
    (w : World) (discovered : list Vault.t + string) (events : list Event) :
  let v := vars (play events (startup w discovered)) in
  filteredVaults v `sublist_of` allVaults v /\ filteredSecrets v `sublist_of` allSecrets v.
Proof.
  apply (play_keeps (fun s => projectionsOk (vars s))).
  - intros e st. apply (handle_effects e st).
  - apply startup_ok.
Qed.

(** X2: after start-up and any sequence of events, there is a secret client
    exactly when there is a current vault, and the client is the client of
    that vault. *)
Theorem client_is_of_the_current_vault
    (w : World) (discovered : list Vault.t + string) (events : list Event) :
  let v := vars (play events (startup w discovered)) in
  match currentVault v, secretClient v with
  | Some x, Some c => vaultUrl c = Vault.vaultUri x
  | None, None => True
  | _, _ => False
  end.
Proof.
  apply (play_keeps (fun s => clientOk (vars s))).
  - intros e st. apply (handle_effects e st).
  - apply startup_ok.
Qed.

(** X3: an event other than a submission of the command prompt changes no
    vault, does not exit, and sends neither a set nor a delete request. *)
Theorem only_a_submit_writes (e : Event) (st : App) :
  isSubmit e = false ->
  let s' := final (handle e st) in
  vaults (world s') = vaults (world st) /\
  exited (world s') = exited (world st) /\
  Forall (fun r => isSet r = false /\ isDelete r = false) (requested st s').
Proof.
  intros He s'. destruct (handle_effects e st) as (_ & Hw & _).
  destruct (handle_requests e st) as (_ & Hr & _).
  destruct (Hw He). auto.
Qed.

(** X4: a delete request is sent only by the submission of a rename, for
    the secret being renamed and under a different new name; when the
    handler ends, the service holds a secret of the new name in that
    vault. *)
Theorem delete_only_completes_a_rename (e : Event) (st : App) (url n : string) :
  In (BeginDeleteSecret url n) (requested st (final (handle e st))) ->
  exists val sec v,
    e = CommandEnter val /\
    actionMode (vars st) = ActionMode.rename /\
    actionSecret (vars st) = Some sec /\
    n = SecretProperties.name sec /\
    Js.trim val <> n /\
    lookupSecret (world (final (handle e st))) url (Js.trim val) = Some v.
Proof.
  destruct (handle_requests e st) as (_ & _ & Hd & _). apply Hd.
Qed.

(** X5: no sequence of events removes an entry from the secret cache. *)
Theorem cache_entries_are_never_dropped (events : list Event) (st : App) (k : string) :
  is_Some (secretCache (vars st) !! k) ->
  is_Some (secretCache (vars (play events st)) !! k).
Proof.
  apply (play_keeps (fun s => is_Some (secretCache (vars s) !! k))).
  intros e s. apply (handle_effects e s).
Qed.

Lemma play_requests (events : list Event) (st : App) :
  calls (world (play events st)) = calls (world st) ++ requested st (play events st) /\
  NoDup (fetchedNames (requested st (play events st))) /\
  (forall k, is_Some (secretCache (vars st) !! k) ->
             is_Some (secretCache (vars (play events st)) !! k)) /\
  (forall n, In n (fetchedNames (requested st (play events st))) ->
             secretCache (vars st) !! n = None).
Proof.
  revert st. induction events as [|e events IH]; intros st; simpl.
  - assert (H : requested st st = []) by (apply requested_extension; symmetry; apply app_nil_r).
    rewrite H. simpl. rewrite app_nil_r. repeat split; auto using NoDup_nil_2. intros ? [].
  - destruct (handle_requests e st) as (H1 & _ & _ & Hn1 & Hc1).
    destruct (handle_effects e st) as (_ & _ & _ & Hk1 & _).
    destruct (IH (final (handle e st))) as (H2 & Hn2 & Hk2 & Hc2).
    set (s1 := final (handle e st)) in *. set (s2 := play events s1) in *.
    assert (H : requested st s2 = requested st s1 ++ requested s1 s2).
    { apply requested_extension. rewrite H2, H1, app_assoc. reflexivity. }
    rewrite H, fetchedNames_app. repeat split.
    + rewrite H2, H1, app_assoc. reflexivity.
    + apply NoDup_app. repeat split; auto.
      intros n Hin1 Hin2. apply list_elem_of_In in Hin1, Hin2.
      destruct (Hc1 n Hin1) as [_ [x Hx]]. rewrite (Hc2 n Hin2) in Hx. discriminate.
    + intros k Hk. auto.
    + intros n Hin. apply in_app_or in Hin. destruct Hin as [Hin|Hin].
      * apply (Hc1 n Hin).
      * specialize (Hc2 n Hin). destruct (secretCache (vars st) !! n) eqn:E; [|reflexivity].
        destruct (Hk1 n) as [x Hx]; [rewrite E; eauto|]. rewrite Hc2 in Hx. discriminate.
Qed.

(** X6: when the events are handled one after the other, every handler
    running to its end (its awaited requests answered) before the next
    event is handled, as [play] does, no secret name is fetched from the
    service twice, whatever the vault and whether or not the fetch
    succeeded.  Two selections of one secret whose fetches overlap are not
    a sequence of this kind, and nothing is said of them. *)
Theorem no_secret_is_fetched_twice (events : list Event) (st : App) :
  NoDup (fetchedNames (requested st (play events st))).
Proof. apply play_requests. Qed.

(** X7: a secret name with a cache entry, even a null one, is never
    fetched again. *)
Theorem a_cached_secret_is_never_fetched (events : list Event) (st : App) (n : string) :
  is_Some (secretCache (vars st) !! n) ->
  ~ In n (fetchedNames (requested st (play events st))).
Proof.
  intros [x Hx] Hin. destruct (play_requests events st) as (_ & _ & _ & H).
  rewrite (H n Hin) in Hx. discriminate.
Qed.

(** X8: only the key [c] can change the clipboard. *)
Theorem only_the_copy_key_writes_the_clipboard (e : Event) (st : App) :
  isCopyKey e = false ->
  clipboard (world (final (handle e st))) = clipboard (world st).
Proof. intros He. destruct (handle_effects e st) as (_ & _ & Hc & _). auto. Qed.

(** X9: the vault list loaded at start-up is never reloaded or changed. *)
Theorem the_vault_list_is_never_reloaded (events : list Event) (st : App) :
  allVaults (vars (play events st)) = allVaults (vars st).
Proof.
  apply (play_keeps (fun s => allVaults (vars s) = allVaults (vars st))); [|reflexivity].
  intros e s H. rewrite <- H. apply (handle_effects e s).
Qed.

(** X30: when the vault discovery fails, the message of the error is shown
    and the application goes on with an empty vault list; no sequence of
    events loads the vaults again: the list stays empty. *)
Theorem a_failed_load_is_never_retried
    (w : World) (message : string) (events : list Event) :
  let st := startup w (inr message) in
  details_text (ui st) = Text ("Failed to load Key Vaults." ++ String "010" message) /\
  exited (world st) = exited w /\
  allVaults (vars (play events st)) = [] /\
  filteredVaults (vars (play events st)) = [].
Proof.
  cbv zeta.
  assert (H0 : allVaults (vars (startup w (inr message))) = []
               /\ details_text (ui (startup w (inr message)))
                  = Text ("Failed to load Key Vaults." ++ String "010" message)
               /\ exited (world (startup w (inr message))) = exited w).
  { unfold startup.
    apply (runs_final (loadVaults (inr message)) _
             (fun s => allVaults (vars s) = [] /\
                       details_text (ui s)
                       = Text ("Failed to load Key Vaults." ++ String "010" message) /\
                       exited (world s) = exited w)).
    destruct w. run_all. simpl. auto. }
  destruct H0 as (Hv & Hd & He).
  assert (Hall : allVaults (vars (play events (startup w (inr message)))) = []).
  { rewrite <- Hv.
    apply (play_keeps
             (fun s => allVaults (vars s) = allVaults (vars (startup w (inr message)))));
      [|reflexivity].
    intros e s H. rewrite <- H. apply (handle_effects e s). }
  assert (Hp : projectionsOk (vars (play events (startup w (inr message))))).
  { apply (play_keeps (fun s => projectionsOk (vars s))).
    - intros e s. apply (handle_effects e s).
    - apply startup_ok. }
  repeat split; auto.
  destruct Hp as [Hp _]. rewrite Hall in Hp. apply sublist_nil_r in Hp. exact Hp.
Qed.

End Sequences.

(** ** The prompt: what a successful submission does *)

Lemma findIndex_Some {A} (p : A -> bool) (l : list A) (i : nat) :
  findIndex p l = Some i -> exists x, l !! i = Some x /\ p x = true.
Proof.
  revert i. induction l as [|y l IH]; intros i; simpl; [discriminate|].
  destruct (p y) eqn:Hy.
  - intros [= <-]. eauto.
  - destruct (findIndex p l) as [j|]; simpl; [|discriminate].
    intros [= <-]. apply (IH j eq_refl).
Qed.

Lemma findIndex_None {A} (p : A -> bool) (l : list A) (x : A) :
  findIndex p l = None -> In x l -> p x = false.
Proof.
  induction l as [|y l IH]; simpl; [intros _ []|].
  destruct (p y) eqn:Hy; [discriminate|].
  destruct (findIndex p l); simpl; [discriminate|].
  intros _ [<-|Hin]; auto.
Qed.

Section Submissions.
Context {widget : ListWidget}.

(** X10: submitting an edit, with the service available, writes the text as
    typed (not trimmed, possibly empty) to the secret of the current client,
    caches it, shows it in the detail view and resets the action mode; the
    only request sent is the set request. *)
Theorem edit_writes_through
    (st : App) (val : string) (sec : SecretProperties.t) (c : SecretClient)
    (secrets : gmap string string) :
  actionMode (vars st) = ActionMode.editValue ->
  actionSecret (vars st) = Some sec ->
  secretClient (vars st) = Some c ->
  vaults (world st) !! vaultUrl c = Some secrets ->
  (forall h r, unavailable (world st) h r = false) ->
  exists s',
    handle (CommandEnter val) st = Fulfilled tt s' /\
    vaults (world s') =
      <[vaultUrl c := <[SecretProperties.name sec := val]> secrets]> (vaults (world st)) /\
    secretCache (vars s') = <[SecretProperties.name sec := Some val]> (secretCache (vars st)) /\
    details_text (ui s') = SecretDetails sec (Some (Some val)) /\
    atSecretDetail (vars s') = true /\
    actionMode (vars s') = ActionMode.none /\
    commandBar_visible (ui s') = false /\
    requested st s' = [SetSecret (vaultUrl c) (SecretProperties.name sec) val].
Proof.
  intros Hmode Hsec Hclient Hvault Havail.
  start_outcome (handle (CommandEnter val)) st. destruct_app st. run_all.
  all: returns.
Qed.


(** X12: submitting the value of a new secret, with the service available,
    writes the value as typed under the name given before, caches it,
    reloads the list from the vault, selects the new secret in it and shows
    it in the detail view, without fetching it. *)
Theorem create_adds_and_shows_the_secret
    (st : App) (val n : string) (cv : Vault.t) (secrets : gmap string string) :
  actionMode (vars st) = ActionMode.createValue ->
  createNewSecretName (vars st) = Some n ->
  Js.truthy n = true ->
  currentVault (vars st) = Some cv ->
  secretClient (vars st) = Some {| vaultUrl := Vault.vaultUri cv |} ->
  vaults (world st) !! Vault.vaultUri cv = Some secrets ->
  (forall h r, unavailable (world st) h r = false) ->
  exists s',
    handle (CommandEnter val) st = Fulfilled tt s' /\
    vaults (world s') = <[Vault.vaultUri cv := <[n := val]> secrets]> (vaults (world st)) /\
    secretCache (vars s') = <[n := Some val]> (secretCache (vars st)) /\
    map SecretProperties.name (allSecrets (vars s')) =
      map fst (map_to_list (<[n := val]> secrets)) /\
    filteredSecrets (vars s') !! list_selectedIndex (ui s') = Some (propertiesOf n) /\
    details_text (ui s') = SecretDetails (propertiesOf n) (Some (Some val)) /\
    atSecretDetail (vars s') = true /\
    actionMode (vars s') = ActionMode.none /\
    createNewSecretName (vars s') = None /\
    requested st s' =
      [SetSecret (Vault.vaultUri cv) n val; ListPropertiesOfSecrets (Vault.vaultUri cv)].
Proof.
  intros Hmode Hname Hn Hcv Hclient Hvault Havail.
  start_outcome (handle (CommandEnter val)) st. destruct_app st. run_all.
  all: try match goal with
           | Hf : findIndex _ _ = Some _ |- _ =>
               destruct (findIndex_Some _ _ _ Hf) as (x & Hx & Hp);
               apply String.eqb_eq in Hp
           | Hf : findIndex _ _ = None |- _ =>
               apply (findIndex_None _ _ (propertiesOf n)) in Hf;
               [ simpl in Hf; rewrite String.eqb_refl in Hf; discriminate Hf
               | apply listing_has; rewrite lookup_insert_eq; eauto ]
           end.
  all: try match goal with
           | Hl : ?l !! ?i = _, Hx : ?l !! ?i = Some _ |- _ =>
               rewrite Hl in Hx; first [ discriminate Hx | injection Hx as <- ];
               destruct (listing_lookup _ _ _ Hl) as [Ht _]; rewrite Hp in Ht;
               match type of Ht with ?t = _ => subst t end; simpl in *
           end.
  all: repeat match goal with
              | H : <[_ := _]> _ !! _ = _ |- _ =>
                  rewrite lookup_insert_eq in H;
                  first [ discriminate H | injection H as <- ]
              end.
  all: returns.
Qed.

End Submissions.

Section Prompt.
Context {widget : ListWidget}.

(** X13: submitting a rename to a blank name or to the name the secret has
    sends no request and changes nothing outside the process; it only
    closes the prompt and resets the action mode, without a message. *)
Theorem rename_to_blank_or_same_name_does_nothing
    (st : App) (val : string) (sec : SecretProperties.t) :
  actionMode (vars st) = ActionMode.rename ->
  actionSecret (vars st) = Some sec ->
  Js.truthy (Js.trim val) = false \/ Js.trim val = SecretProperties.name sec ->
  exists s',
    handle (CommandEnter val) st = Fulfilled tt s' /\
    world s' = world st /\
    secretCache (vars s') = secretCache (vars st) /\
    details_text (ui s') = details_text (ui st) /\
    actionMode (vars s') = ActionMode.none /\
    actionSecret (vars s') = None /\
    commandBar_visible (ui s') = false.
Proof.
  intros Hmode Hsec Hval.
  assert (H : Js.truthy (Js.trim val) && negb (Js.trim val =? SecretProperties.name sec)
              = false).
  { destruct Hval as [->| ->]; [reflexivity|]. rewrite String.eqb_refl. apply andb_false_r. }
  clear Hval. apply andb_false_iff in H. rewrite negb_false_iff in H.
  start_outcome (handle (CommandEnter val)) st. destruct_app st.
  destruct H as [H|H]; run_all; returns.
Qed.

(** X14: the name of a new secret is the trimmed prompt text, here for text
    of ASCII characters.  A blank name is refused with a message and ends
    the creation; otherwise the prompt stays open, emptied, for the value.
    No request is sent either way. *)
Theorem create_name_is_trimmed_and_not_blank (st : App) (val : string) :
  actionMode (vars st) = ActionMode.createName ->
  isAscii val = true ->
  exists s',
    handle (CommandEnter val) st = Fulfilled tt s' /\
    world s' = world st /\
    if Js.truthy (Js.trim val)
    then actionMode (vars s') = ActionMode.createValue /\
         createNewSecretName (vars s') = Some (Js.trim val) /\
         commandBar_visible (ui s') = true /\
         commandBar_value (ui s') = ""
    else actionMode (vars s') = ActionMode.none /\
         details_text (ui s') = Text "Name cannot be empty." /\
         commandBar_visible (ui s') = false.
Proof.
  intros Hmode _.
  start_outcome (handle (CommandEnter val)) st. destruct_app st.
  run_all; eexists; (split; [reflexivity|]); normalise; recall; repeat split.
Qed.

(** X15: the target vault of a move is looked up by name, ignoring letter
    case and surrounding white space: if some vault matches, the first one
    that does becomes the target, and the prompt stays open with the name of
    the secret as the proposed new name.  No request is sent. *)
Theorem move_target_is_matched_ignoring_case
    (st : App) (val : string) (sec : SecretProperties.t) (v : Vault.t) :
  actionMode (vars st) = ActionMode.moveTarget ->
  actionSecret (vars st) = Some sec ->
  In v (allVaults (vars st)) ->
  Js.toLowerCase (Vault.name v) = Js.toLowerCase (Js.trim val) ->
  exists s' target,
    handle (CommandEnter val) st = Fulfilled tt s' /\
    moveTargetVault (vars s') = Some target /\
    In target (allVaults (vars st)) /\
    Js.toLowerCase (Vault.name target) = Js.toLowerCase (Js.trim val) /\
    actionMode (vars s') = ActionMode.moveNewName /\
    actionSecret (vars s') = Some sec /\
    commandBar_visible (ui s') = true /\
    commandBar_value (ui s') = SecretProperties.name sec /\
    world s' = world st.
Proof.
  intros Hmode Hsec Hin Hname.
  start_outcome (handle (CommandEnter val)) st. destruct_app st. run_all.
  all: match goal with
       | H : find _ _ = Some ?t |- _ =>
           apply find_some in H; destruct H as [Hin' Hp]; apply String.eqb_eq in Hp;
           eexists _, t; split; [ reflexivity | ]; by_computation
       | H : find _ _ = None |- _ =>
           apply (find_none _ _ H) in Hin; simpl in Hin;
           rewrite Hname, String.eqb_refl in Hin; discriminate Hin
       end.
Qed.



End Prompt.

(** ** Keys and list events *)

Section Keys.
Context {widget : ListWidget}.

(** X16: the keys [c], [e], [r] and [m] do nothing at all unless the secret
    list has the focus in the secrets view with a secret opened in the
    detail view. *)
Theorem action_keys_need_the_detail_view (st : App) (name : string) :
  In name ["c"; "e"; "r"; "m"] ->
  atSecretDetail (vars st) = false \/
  state (vars st) <> ViewState.listSecrets \/
  focus (vars st) <> FocusTarget.list ->
  handle (KeyPress name) st = Fulfilled tt st.
Proof.
  intros Hname Hview.
  start_outcome (handle (KeyPress name)) st. destruct_app st.
  simpl in Hname.
  destruct Hname as [<-|[<-|[<-|[<-|[]]]]];
    (destruct Hview as [->|[Hs|Hf]];
     [ | destruct state_; try congruence | destruct focus_; try congruence ]);
    run_all; reflexivity.
Qed.

(** X17: while the prompt is open, or while the filter has the focus, the
    escape key does not go back: the view, the detail flag, the current
    vault, the list and the action mode stay as they are, and the prompt is
    closed. *)
Theorem escape_leaves_prompt_or_filter_first (st : App) :
  commandBar_visible (ui st) = true \/ focus (vars st) = FocusTarget.filter ->
  exists s',
    handle (KeyPress "escape") st = Fulfilled tt s' /\
    state (vars s') = state (vars st) /\
    atSecretDetail (vars s') = atSecretDetail (vars st) /\
    currentVault (vars s') = currentVault (vars st) /\
    list_options (ui s') = list_options (ui st) /\
    actionMode (vars s') = actionMode (vars st) /\
    commandBar_visible (ui s') = false /\
    world s' = world st.
Proof.
  intros Hview.
  start_outcome (handle (KeyPress "escape")) st. destruct_app st.
  destruct Hview as [->| ->]; run_all; returns.
Qed.

(** X18: moving the selection in the list sends no request and changes no
    state variable.  When the list has the focus in the secrets view and an
    option is selected, the detail text becomes the preview of the selected
    secret, its metadata without the value, with styled headers; in every
    other case the detail text stays as it is. *)
Theorem moving_the_selection_only_previews
    (st : App) (selected : option SelectOption.t) :
  exists s',
    handle (ListSelectionChanged selected) st = Fulfilled tt s' /\
    vars s' = vars st /\
    world s' = world st /\
    match focus (vars st), state (vars st), selected with
    | FocusTarget.list, ViewState.listSecrets, Some sel =>
        details_text (ui s') = SecretPreview (asSecret (SelectOption.value sel)) /\
        details_styled (ui s') = true
    | _, _, _ =>
        details_text (ui s') = details_text (ui st) /\
        details_styled (ui s') = details_styled (ui st)
    end.
Proof.
  start_outcome (handle (ListSelectionChanged selected)) st. destruct_app st.
  run_all; eexists; (split; [reflexivity|]); normalise; repeat split.
Qed.

(** X19: opening a vault from the vault list, with the service available,
    enters the secrets view with that vault as the current vault and its
    client as the client, lists exactly the names the vault holds, selects
    the first entry, clears the filter text and leaves the cache alone. *)
Theorem opening_a_vault_lists_its_secrets
    (st : App) (v : Vault.t) (secrets : gmap string string) :
  state (vars st) = ViewState.selectVault ->
  focus (vars st) = FocusTarget.list ->
  vaults (world st) !! Vault.vaultUri v = Some secrets ->
  (forall h r, unavailable (world st) h r = false) ->
  exists s',
    handle (ListItemSelected (Some (vaultOption v))) st = Fulfilled tt s' /\
    state (vars s') = ViewState.listSecrets /\
    currentVault (vars s') = Some v /\
    secretClient (vars s') = Some {| vaultUrl := Vault.vaultUri v |} /\
    map SecretProperties.name (allSecrets (vars s')) = map fst (map_to_list secrets) /\
    filteredSecrets (vars s') = allSecrets (vars s') /\
    list_options (ui s') = map secretOption (allSecrets (vars s')) /\
    list_selectedIndex (ui s') = 0 /\
    filter_value (ui s') = "" /\
    atSecretDetail (vars s') = false /\
    secretCache (vars s') = secretCache (vars st) /\
    requested st s' = [ListPropertiesOfSecrets (Vault.vaultUri v)].
Proof.
  intros Hstate Hfocus Hvault Havail.
  start_outcome (handle (ListItemSelected (Some (vaultOption v)))) st. destruct_app st.
  run_all; returns.
Qed.

(** X20: when the service refuses to list the secrets of the vault being
    opened, the handler throws after it has switched to the secrets view:
    the view and the current vault are the new ones, while the list still
    holds the vault options and the detail pane says "Loading secrets...". *)
Theorem a_refused_listing_leaves_the_vault_list
    (st : App) (v : Vault.t) :
  state (vars st) = ViewState.selectVault ->
  focus (vars st) = FocusTarget.list ->
  unavailable (world st) (calls (world st)) (ListPropertiesOfSecrets (Vault.vaultUri v))
    = true ->
  exists s',
    handle (ListItemSelected (Some (vaultOption v))) st
      = Rejected (RestError (ListPropertiesOfSecrets (Vault.vaultUri v))) s' /\
    state (vars s') = ViewState.listSecrets /\
    currentVault (vars s') = Some v /\
    list_options (ui s') = list_options (ui st) /\
    allSecrets (vars s') = allSecrets (vars st) /\
    details_text (ui s') = Text "Loading secrets..." /\
    leftBox_title (ui s') = "Secrets • " +:+ Vault.name v.
Proof.
  intros Hstate Hfocus Hrefused.
  start_outcome (handle (ListItemSelected (Some (vaultOption v)))) st. destruct_app st.
  run_all; returns.
Qed.

(** X21: a value written with [setSecretValue] is what [getSecretValue]
    returns next for that name, from the cache and without a request. *)
Theorem written_value_is_read_back
    (st s1 : App) (sp : SecretProperties.t) (v : string) :
  is_Some (secretClient (vars st)) ->
  setSecretValue (SecretProperties.name sp) v st = Fulfilled tt s1 ->
  getSecretValue sp s1 = Fulfilled (Some v) s1.
Proof.
  intros [c Hc]. start_outcome (setSecretValue (SecretProperties.name sp) v) st.
  destruct_app st. run_all; intros [= <-].
  all: match goal with
       | |- context [getSecretValue ?p ?s] => start_outcome (getSecretValue p) s
       end.
  all: run_all; simplify_lookups; reflexivity.
Qed.

End Keys.

(** ** Runs of the example that the statements above apply to *)

(** X3, witness: the key [m] in the detail view of "db". *)
Lemma only_a_submit_writes_witness :
  let st := after reliable openDb in
  let s' := final (handle (widget := clampIndex) (KeyPress "m") st) in
  isSubmit (KeyPress "m") = false /\
  vaults (world s') = vaults (world st) /\
  exited (world s') = exited (world st) /\
  Forall (fun r => isSet r = false /\ isDelete r = false) (requested st s').
Proof.
  split; [reflexivity|].
  apply (only_a_submit_writes (widget := clampIndex) (KeyPress "m") (after reliable openDb)).
  reflexivity.
Defined.

(** X4, witness: "db" of vault alpha is renamed to "db2". *)
Lemma delete_only_completes_a_rename_witness :
  let st := after reliable (openDb ++ [KeyPress "r"]) in
  let s' := final (handle (widget := clampIndex) (CommandEnter "db2") st) in
  In (BeginDeleteSecret (Vault.vaultUri alpha) "db") (requested st s') /\
  exists val sec v,
    CommandEnter "db2" = CommandEnter val /\
    actionMode (vars st) = ActionMode.rename /\
    actionSecret (vars st) = Some sec /\
    "db" = SecretProperties.name sec /\
    Js.trim val <> "db" /\
    lookupSecret (world s') (Vault.vaultUri alpha) (Js.trim val) = Some v.
Proof.
  assert (H : In (BeginDeleteSecret (Vault.vaultUri alpha) "db")
                (requested (after reliable (openDb ++ [KeyPress "r"]))
                   (final (handle (widget := clampIndex) (CommandEnter "db2")
                             (after reliable (openDb ++ [KeyPress "r"])))))).
  { vm_compute. auto. }
  split; [exact H|].
  exact (delete_only_completes_a_rename (widget := clampIndex) _ _ _ _ H).
Defined.

(** X5, witness: "db" is opened, then the view goes back to the vault
    list. *)
Lemma cache_entries_are_never_dropped_witness :
  let st := after reliable openDb in
  is_Some (secretCache (vars st) !! "db") /\
  is_Some (secretCache
             (vars (play (widget := clampIndex) [KeyPress "escape"; KeyPress "escape"] st))
           !! "db").
Proof.
  assert (H : is_Some (secretCache (vars (after reliable openDb)) !! "db")).
  { exists (Some "a-secret"). vm_compute. reflexivity. }
  split; [exact H|].
  exact (cache_entries_are_never_dropped (widget := clampIndex) _ _ _ H).
Defined.

(** X7, witness: "db" of vault alpha is opened, then "db" of vault beta. *)
Lemma a_cached_secret_is_never_fetched_witness :
  let st := after reliable openDb in
  let events :=
    [KeyPress "escape"; KeyPress "escape";
     ListItemSelected (Some (vaultOption beta)); ListItemSelected (Some (secretOption db))] in
  is_Some (secretCache (vars st) !! "db") /\
  ~ In "db" (fetchedNames (requested st (play (widget := clampIndex) events st))).
Proof.
  assert (H : is_Some (secretCache (vars (after reliable openDb)) !! "db")).
  { exists (Some "a-secret"). vm_compute. reflexivity. }
  split; [exact H|].
  exact (a_cached_secret_is_never_fetched (widget := clampIndex) _ _ _ H).
Defined.

(** X8, witness: the key [e] in the detail view of "db". *)
Lemma only_the_copy_key_writes_the_clipboard_witness :
  let st := after reliable openDb in
  isCopyKey (KeyPress "e") = false /\
  clipboard (world (final (handle (widget := clampIndex) (KeyPress "e") st)))
    = clipboard (world st).
Proof.
  split; [reflexivity|].
  apply (only_the_copy_key_writes_the_clipboard (widget := clampIndex)). reflexivity.
Defined.

(** X10, witness: the value of "db" is edited to the empty text. *)
Lemma edit_writes_through_witness :
  let st := after reliable (openDb ++ [KeyPress "e"]) in
  exists s',
    handle (widget := clampIndex) (CommandEnter "") st = Fulfilled tt s' /\
    lookupSecret (world s') (Vault.vaultUri alpha) "db" = Some "" /\
    secretCache (vars s') !! "db" = Some (Some "") /\
    requested st s' = [SetSecret (Vault.vaultUri alpha) "db" ""].
Proof.
  destruct (edit_writes_through (widget := clampIndex)
              (after reliable (openDb ++ [KeyPress "e"])) "" db
              {| vaultUrl := Vault.vaultUri alpha |} (<["db" := "a-secret"]> ∅))
    as (s' & E & Hv & Hc & _ & _ & _ & _ & Hr);
    try (intros; vm_compute; reflexivity).
  exists s'. split; [exact E|]. unfold lookupSecret. rewrite Hv, Hc.
  split; [vm_compute; reflexivity|]. split; [vm_compute; reflexivity|]. exact Hr.
Defined.


(** X12, witness: a secret "api-key" is created in vault alpha. *)
Lemma create_adds_and_shows_the_secret_witness :
  let st :=
    after reliable
      [ListItemSelected (Some (vaultOption alpha)); KeyPress "n"; CommandEnter " api-key "] in
  exists s',
    handle (widget := clampIndex) (CommandEnter "s3cr3t") st = Fulfilled tt s' /\
    lookupSecret (world s') (Vault.vaultUri alpha) "api-key" = Some "s3cr3t" /\
    filteredSecrets (vars s') !! list_selectedIndex (ui s') = Some (propertiesOf "api-key") /\
    details_text (ui s') = SecretDetails (propertiesOf "api-key") (Some (Some "s3cr3t")).
Proof.
  destruct (create_adds_and_shows_the_secret (widget := clampIndex)
              (after reliable
                 [ListItemSelected (Some (vaultOption alpha)); KeyPress "n";
                  CommandEnter " api-key "])
              "s3cr3t" "api-key" alpha (<["db" := "a-secret"]> ∅))
    as (s' & E & Hv & _ & _ & Hi & Hd & _);
    try (intros; vm_compute; reflexivity).
  exists s'. split; [exact E|]. unfold lookupSecret. rewrite Hv.
  split; [vm_compute; reflexivity|]. split; [exact Hi|exact Hd].
Defined.

(** X13, witness: the rename prompt of "db" is submitted with blanks. *)
Lemma rename_to_blank_or_same_name_does_nothing_witness :
  let st := after reliable (openDb ++ [KeyPress "r"]) in
  exists s',
    handle (widget := clampIndex) (CommandEnter "   ") st = Fulfilled tt s' /\
    world s' = world st /\
    actionMode (vars s') = ActionMode.none.
Proof.
  destruct (rename_to_blank_or_same_name_does_nothing (widget := clampIndex)
              (after reliable (openDb ++ [KeyPress "r"])) "   " db)
    as (s' & E & Hw & _ & _ & Hm & _);
    try (vm_compute; reflexivity).
  { left. vm_compute. reflexivity. }
  exists s'. auto.
Defined.

(** X14, witness: a blank name for a new secret in vault alpha. *)
Lemma create_name_is_trimmed_and_not_blank_witness :
  let st := after reliable [ListItemSelected (Some (vaultOption alpha)); KeyPress "n"] in
  actionMode (vars st) = ActionMode.createName /\
  isAscii "  " = true /\
  isAscii " api-key " = true /\
  (exists s',
     handle (widget := clampIndex) (CommandEnter "  ") st = Fulfilled tt s' /\
     details_text (ui s') = Text "Name cannot be empty.") /\
  (exists s',
     handle (widget := clampIndex) (CommandEnter " api-key ") st = Fulfilled tt s' /\
     createNewSecretName (vars s') = Some "api-key").
Proof.
  split; [vm_compute; reflexivity|]. split; [reflexivity|]. split; [reflexivity|]. split.
  - destruct (create_name_is_trimmed_and_not_blank (widget := clampIndex)
                (after reliable [ListItemSelected (Some (vaultOption alpha)); KeyPress "n"])
                "  ")
      as (s' & E & _ & H); [vm_compute; reflexivity..|].
    exists s'. split; [exact E|]. apply H.
  - destruct (create_name_is_trimmed_and_not_blank (widget := clampIndex)
                (after reliable [ListItemSelected (Some (vaultOption alpha)); KeyPress "n"])
                " api-key ")
      as (s' & E & _ & H); [vm_compute; reflexivity..|].
    exists s'. split; [exact E|]. apply H.
Defined.

(** X15, witness: the target vault "beta" is typed as " BETA ". *)
Lemma move_target_is_matched_ignoring_case_witness :
  let st := after reliable (openDb ++ [KeyPress "m"; KeyPress ":"]) in
  exists s',
    handle (widget := clampIndex) (CommandEnter " BETA ") st = Fulfilled tt s' /\
    actionMode (vars s') = ActionMode.moveNewName /\
    commandBar_value (ui s') = "db".
Proof.
  destruct (move_target_is_matched_ignoring_case (widget := clampIndex)
              (after reliable (openDb ++ [KeyPress "m"; KeyPress ":"])) " BETA " db beta)
    as (s' & target & E & _ & _ & _ & Hm & _ & _ & Hv & _);
    try (vm_compute; reflexivity).
  { vm_compute. auto. }
  exists s'. auto.
Defined.

(** X16, witness: the key [e] in the secret list of vault alpha, before a
    secret is opened. *)
Lemma action_keys_need_the_detail_view_witness :
  let st := after reliable [ListItemSelected (Some (vaultOption alpha))] in
  atSecretDetail (vars st) = false /\
  handle (widget := clampIndex) (KeyPress "e") st = Fulfilled tt st.
Proof.
  assert (H : atSecretDetail
                (vars (after reliable [ListItemSelected (Some (vaultOption alpha))]))
              = false) by (vm_compute; reflexivity).
  split; [exact H|].
  apply (action_keys_need_the_detail_view (widget := clampIndex)).
  - simpl. auto.
  - left. exact H.
Defined.

(** X17, witness: the command prompt is opened in the detail view of "db",
    then closed with escape. *)
Lemma escape_leaves_prompt_or_filter_first_witness :
  let st := after reliable (openDb ++ [KeyPress ":"]) in
  exists s',
    handle (widget := clampIndex) (KeyPress "escape") st = Fulfilled tt s' /\
    atSecretDetail (vars s') = true /\
    commandBar_visible (ui s') = false.
Proof.
  destruct (escape_leaves_prompt_or_filter_first (widget := clampIndex)
              (after reliable (openDb ++ [KeyPress ":"])))
    as (s' & E & _ & Hd & _ & _ & _ & Hv & _).
  { left. vm_compute. reflexivity. }
  exists s'. split; [exact E|]. rewrite Hd. split; [vm_compute; reflexivity|exact Hv].
Defined.

(** X19, witness: vault alpha is opened. *)
Lemma opening_a_vault_lists_its_secrets_witness :
  let st := after reliable [] in
  exists s',
    handle (widget := clampIndex) (ListItemSelected (Some (vaultOption alpha))) st
      = Fulfilled tt s' /\
    map SecretProperties.name (allSecrets (vars s')) = ["db"] /\
    requested st s' = [ListPropertiesOfSecrets (Vault.vaultUri alpha)].
Proof.
  destruct (opening_a_vault_lists_its_secrets (widget := clampIndex)
              (after reliable []) alpha (<["db" := "a-secret"]> ∅))
    as (s' & E & _ & _ & _ & Hl & _ & _ & _ & _ & _ & _ & Hr);
    try (intros; vm_compute; reflexivity).
  exists s'. split; [exact E|]. rewrite Hl. split; [vm_compute; reflexivity|exact Hr].
Defined.

(** X20, witness: vault alpha is opened while the service refuses to list
    secrets. *)
Lemma a_refused_listing_leaves_the_vault_list_witness :
  let refused c := match c with ListPropertiesOfSecrets _ => true | _ => false end in
  let st := after refused [] in
  exists s',
    handle (widget := clampIndex) (ListItemSelected (Some (vaultOption alpha))) st
      = Rejected (RestError (ListPropertiesOfSecrets (Vault.vaultUri alpha))) s' /\
    state (vars s') = ViewState.listSecrets /\
    list_options (ui s') = map vaultOption [alpha; alps; beta].
Proof.
  destruct (a_refused_listing_leaves_the_vault_list (widget := clampIndex)
              (after (fun c => match c with ListPropertiesOfSecrets _ => true | _ => false end)
                 []) alpha)
    as (s' & E & Hs & _ & Hl & _); try (vm_compute; reflexivity).
  exists s'. split; [exact E|]. split; [exact Hs|]. rewrite Hl. vm_compute. reflexivity.
Defined.

(** X21, witness: "db" is written in vault alpha before it was ever read. *)
Lemma written_value_is_read_back_witness :
  let st := after reliable [ListItemSelected (Some (vaultOption alpha))] in
  let s1 := final (setSecretValue "db" "rotated" st) in
  setSecretValue "db" "rotated" st = Fulfilled tt s1 /\
  getSecretValue db s1 = Fulfilled (Some "rotated") s1.
Proof.
  assert (H : setSecretValue "db" "rotated"
                (after reliable [ListItemSelected (Some (vaultOption alpha))])
              = Fulfilled tt
                  (final (setSecretValue "db" "rotated"
                            (after reliable [ListItemSelected (Some (vaultOption alpha))]))))
    by (vm_compute; reflexivity).
  split; [exact H|].
  apply (written_value_is_read_back
           (after reliable [ListItemSelected (Some (vaultOption alpha))]) _ db "rotated");
    [|exact H].
  eexists. vm_compute. reflexivity.
Defined.

(** ** Vault discovery *)

Lemma dedupById_spec (seen : gset string) (l : list Vault.t) :
  NoDup (map Vault.id (dedupById seen l)) /\
  (forall v, In v (dedupById seen l) -> In v l /\ Vault.id v ∉ seen) /\
  (forall v, In v l -> Vault.id v ∉ seen ->
             exists v', In v' (dedupById seen l) /\ Vault.id v' = Vault.id v).
Proof.
  revert seen. induction l as [|x l IH]; intros seen; simpl.
  - split; [constructor|]. split; intros ? [].
  - destruct (IH seen) as (N1 & S1 & C1).
    destruct (IH ({[Vault.id x]} ∪ seen)) as (N2 & S2 & C2).
    case_bool_decide as Hx.
    + split; [exact N1|]. split.
      * intros v Hin. destruct (S1 v Hin). auto.
      * intros v [<-|Hin] Hv; [contradiction|]. auto.
    + split; [|split].
      * simpl. constructor; [|exact N2].
        intros Hin. apply list_elem_of_In, in_map_iff in Hin as (y & Hy & Hin).
        destruct (S2 y Hin) as [_ Hn]. apply Hn. rewrite Hy.
        apply elem_of_union_l, elem_of_singleton. reflexivity.
      * intros v [<-|Hin]; [auto|]. destruct (S2 v Hin) as [? Hn].
        split; [auto|]. intros Hs. apply Hn, elem_of_union_r, Hs.
      * intros v [<-|Hin] Hv; [exists x; simpl; auto|].
        destruct (decide (Vault.id v = Vault.id x)) as [E|E].
        -- exists x. simpl. auto.
        -- destruct (C2 v Hin) as (v' & Hin' & E').
           { rewrite elem_of_union, elem_of_singleton. tauto. }
           exists v'. simpl. auto.
Qed.

Section Sorting.
Context {collation : Collation}.

Lemma insertByName_Permutation (v : Vault.t) (l : list Vault.t) :
  insertByName v l ≡ₚ v :: l.
Proof.
  induction l as [|x l IH]; simpl; [reflexivity|].
  destruct (_ <=? _)%Z; [reflexivity|]. rewrite IH. apply Permutation_swap.
Qed.

Lemma sortByName_Permutation (l : list Vault.t) : sortByName l ≡ₚ l.
Proof.
  induction l as [|x l IH]; simpl; [reflexivity|].
  rewrite insertByName_Permutation, IH. reflexivity.
Qed.

Lemma sortByName_In (l : list Vault.t) (v : Vault.t) : In v (sortByName l) <-> In v l.
Proof.
  rewrite <- !list_elem_of_In. rewrite (sortByName_Permutation l). reflexivity.
Qed.

Hypothesis total : forall a b, (localeCompare a b <= 0 \/ localeCompare b a <= 0)%Z.
Hypothesis transitive :
  forall a b c, (localeCompare a b <= 0 -> localeCompare b c <= 0 -> localeCompare a c <= 0)%Z.

Lemma insertByName_sorted (v : Vault.t) (l : list Vault.t) :
  StronglySorted nameLe l -> StronglySorted nameLe (insertByName v l).
Proof.
  induction 1 as [|x l Hs IH Hx]; simpl; [repeat constructor|].
  destruct (Z.leb_spec (localeCompare (Vault.name v) (Vault.name x)) 0) as [Hle|Hgt].
  - constructor; [constructor; assumption|]. constructor; [exact Hle|].
    eapply Forall_impl; [exact Hx|]. intros y Hy. unfold nameLe in *. eauto.
  - constructor; [exact IH|].
    apply Forall_forall. intros y Hy.
    rewrite insertByName_Permutation in Hy. apply elem_of_cons in Hy as [->|Hy].
    + unfold nameLe. destruct (total (Vault.name x) (Vault.name v)); [assumption|lia].
    + rewrite Forall_forall in Hx. apply Hx, Hy.
Qed.

Lemma sortByName_sorted (l : list Vault.t) : StronglySorted nameLe (sortByName l).
Proof.
  induction l as [|x l IH]; simpl; [constructor|]. apply insertByName_sorted, IH.
Qed.

End Sorting.

Section Discovered.
Context {collation : Collation}.

Lemma collect_In (results : list (ShellOutput (list RawVault.t))) (raw : RawVault.t) :
  In raw (collect results) <->
  exists r, In r results /\ exitCode r = 0%Z /\ In raw (stdout r).
Proof.
  unfold collect. rewrite in_flat_map. split.
  - intros (r & Hr & Hin). exists r. destruct (Z.eqb_spec (exitCode r) 0); [auto|destruct Hin].
  - intros (r & Hr & He & Hin). exists r. rewrite He. auto.
Qed.

Lemma awaitedAll_inl {A} (rs rs' : list (ShellOutput A)) :
  awaitedAll rs = inl rs' <-> rs' = rs /\ forall r, In r rs -> exitCode r = 0%Z.
Proof.
  unfold awaitedAll.
  destruct (List.filter _ rs) as [|f failed] eqn:Hf.
  - split.
    + intros [= <-]. split; [reflexivity|]. intros r Hr.
      destruct (Z.eqb_spec (exitCode r) 0) as [E|E]; [exact E|].
      assert (Hin : In r (List.filter (fun r => negb (exitCode r =? 0)%Z) rs)).
      { apply filter_In. split; [exact Hr|]. apply negb_true_iff, Z.eqb_neq, E. }
      rewrite Hf in Hin. destruct Hin.
    + intros [-> _]. reflexivity.
  - split; [discriminate|]. intros [_ Hall].
    assert (Hin : In f (List.filter (fun r => negb (exitCode r =? 0)%Z) rs))
      by (rewrite Hf; left; reflexivity).
    apply filter_In in Hin as [Hin Hne]. rewrite (Hall f Hin) in Hne. discriminate.
Qed.

Lemma getVaultsAllSubscriptions_returns
    (accountList : ShellOutput (list Subscription.t))
    (keyvaultList : string -> ShellOutput (list RawVault.t)) :
  (exists vs, getVaultsAllSubscriptions accountList keyvaultList = inl vs) <->
  exitCode accountList = 0%Z /\
  forall s, In s (stdout accountList) -> exitCode (keyvaultList (Subscription.id s)) = 0%Z.
Proof.
  unfold getVaultsAllSubscriptions, awaited.
  destruct (Z.eqb_spec (exitCode accountList) 0) as [E|E]; simpl.
  - rewrite E. simpl. destruct (stdout accountList) as [|s0 subs] eqn:Hsubs.
    + split; [intros _; split; [reflexivity|intros ? []]|eauto].
    + rewrite <- Hsubs.
      destruct (awaitedAll _) as [results|e] eqn:Ha.
      * apply awaitedAll_inl in Ha as [_ Hall]. split; [|eauto].
        intros _. split; [reflexivity|]. intros s Hs. apply Hall, in_map_iff. eauto.
      * split; [intros [vs H]; discriminate H|]. intros [_ Hall].
        assert (H : awaitedAll (map (fun s => keyvaultList (Subscription.id s))
                                    (stdout accountList))
                    = inl (map (fun s => keyvaultList (Subscription.id s))
                               (stdout accountList))).
        { apply awaitedAll_inl. split; [reflexivity|].
          intros r Hr. apply in_map_iff in Hr as (s & <- & Hs). auto. }
        rewrite H in Ha. discriminate Ha.
  - split; [intros [vs H]; discriminate H|]. intros [H _]. contradiction.
Qed.

Lemma getVaultsAllSubscriptions_inl
    (accountList : ShellOutput (list Subscription.t))
    (keyvaultList : string -> ShellOutput (list RawVault.t)) (vs : list Vault.t) :
  getVaultsAllSubscriptions accountList keyvaultList = inl vs ->
  vs = sortByName
         (dedupById ∅
            (map toVault
               (collect (map (fun s => keyvaultList (Subscription.id s))
                             (stdout accountList))))).
Proof.
  unfold getVaultsAllSubscriptions, awaited.
  destruct (exitCode accountList =? 0)%Z eqn:E; [|discriminate]. rewrite E. simpl.
  destruct (stdout accountList) as [|s0 subs] eqn:Hsubs; [intros [= <-]; reflexivity|].
  rewrite <- Hsubs.
  destruct (awaitedAll _) as [results|e] eqn:Ha; [|discriminate].
  apply awaitedAll_inl in Ha as [-> _]. intros [= <-]. reflexivity.
Qed.

Lemma getVaultsAllSubscriptions_never_its_own_message
    (accountList : ShellOutput (list Subscription.t))
    (keyvaultList : string -> ShellOutput (list RawVault.t)) (message : string) :
  getVaultsAllSubscriptions accountList keyvaultList <> inr (Failure message).
Proof.
  unfold getVaultsAllSubscriptions, awaited.
  destruct (exitCode accountList =? 0)%Z eqn:E; [|discriminate]. rewrite E. simpl.
  destruct (stdout accountList) as [|s0 subs]; [discriminate|].
  unfold awaitedAll. destruct (List.filter _ _); discriminate.
Qed.

(** X22: the vaults that the discovery returns have pairwise distinct
    ids. *)
Theorem discovered_vaults_have_distinct_ids
    (accountList : ShellOutput (list Subscription.t))
    (keyvaultList : string -> ShellOutput (list RawVault.t)) (vs : list Vault.t) :
  getVaultsAllSubscriptions accountList keyvaultList = inl vs ->
  NoDup (map Vault.id vs).
Proof.
  intros H. rewrite (getVaultsAllSubscriptions_inl _ _ _ H).
  rewrite (sortByName_Permutation _). apply dedupById_spec.
Qed.

(** X23: the discovery returns a list exactly when [az account list] and
    the [az keyvault list] of every subscription end with exit code 0; the
    list then holds listed vaults only and, for every listed vault, one with
    the same id.  When a command ends with another exit code the call throws
    the error of the shell: a listing that fails is not skipped, and the
    message of the code's own is never the one thrown. *)
Theorem discovered_vaults_are_the_listed_ones
    (accountList : ShellOutput (list Subscription.t))
    (keyvaultList : string -> ShellOutput (list RawVault.t)) :
  ((exists vs, getVaultsAllSubscriptions accountList keyvaultList = inl vs) <->
   exitCode accountList = 0%Z /\
   forall s, In s (stdout accountList) ->
             exitCode (keyvaultList (Subscription.id s)) = 0%Z) /\
  (forall message,
     getVaultsAllSubscriptions accountList keyvaultList <> inr (Failure message)) /\
  (forall vs,
     getVaultsAllSubscriptions accountList keyvaultList = inl vs ->
     (forall v, In v vs ->
        exists s raw,
          In s (stdout accountList) /\
          In raw (stdout (keyvaultList (Subscription.id s))) /\
          v = toVault raw) /\
     (forall s raw,
        In s (stdout accountList) ->
        In raw (stdout (keyvaultList (Subscription.id s))) ->
        exists v, In v vs /\ Vault.id v = RawVault.id raw)).
Proof.
  split; [apply getVaultsAllSubscriptions_returns|].
  split; [apply getVaultsAllSubscriptions_never_its_own_message|].
  intros vs H.
  assert (Hok : forall s, In s (stdout accountList) ->
                          exitCode (keyvaultList (Subscription.id s)) = 0%Z).
  { apply getVaultsAllSubscriptions_returns. eauto. }
  rewrite (getVaultsAllSubscriptions_inl _ _ _ H). clear H.
  set (results := map _ (stdout accountList)).
  destruct (dedupById_spec ∅ (map toVault (collect results))) as (_ & Hs & Hc).
  split.
  - intros v Hin. apply sortByName_In, Hs in Hin as [Hin _].
    apply in_map_iff in Hin as (raw & <- & Hin).
    apply collect_In in Hin as (r & Hr & He & Hin).
    apply in_map_iff in Hr as (s & <- & Hs'). eauto 10.
  - intros s raw Hs' Hin.
    destruct (Hc (toVault raw)) as (v & Hv & E).
    + apply in_map, collect_In. exists (keyvaultList (Subscription.id s)).
      split; [|auto]. apply in_map_iff. eauto.
    + apply not_elem_of_empty.
    + exists v. split; [apply sortByName_In, Hv|exact E].
Qed.

(** X24: when the comparison of names is total and transitive, the vaults
    that the discovery returns are sorted by name. *)
Theorem discovered_vaults_are_sorted_by_name
    (accountList : ShellOutput (list Subscription.t))
    (keyvaultList : string -> ShellOutput (list RawVault.t)) (vs : list Vault.t) :
  (forall a b, (localeCompare a b <= 0 \/ localeCompare b a <= 0)%Z) ->
  (forall a b c,
     (localeCompare a b <= 0 -> localeCompare b c <= 0 -> localeCompare a c <= 0)%Z) ->
  getVaultsAllSubscriptions accountList keyvaultList = inl vs ->
  StronglySorted nameLe vs.
Proof.
  intros total transitive H. rewrite (getVaultsAllSubscriptions_inl _ _ _ H).
  apply sortByName_sorted; assumption.
Qed.

End Discovered.

(** X22, witness: the vault "alpha" is listed by two subscriptions. *)
Lemma discovered_vaults_have_distinct_ids_witness :
  getVaultsAllSubscriptions (collation := Discovery.byLength) Discovery.accounts Discovery.keyvaults
    = inl [beta; alps; alpha] /\
  NoDup (map Vault.id [beta; alps; alpha]).
Proof.
  assert (H : getVaultsAllSubscriptions (collation := Discovery.byLength)
                Discovery.accounts Discovery.keyvaults = inl [beta; alps; alpha])
    by (vm_compute; reflexivity).
  split; [exact H|].
  exact (discovered_vaults_have_distinct_ids (collation := Discovery.byLength) _ _ _ H).
Defined.

(** X23, witness: the vault "alps" has no [vaultUri] in its listing; when
    the listing of the third subscription fails, the call throws. *)
Lemma discovered_vaults_are_the_listed_ones_witness :
  getVaultsAllSubscriptions (collation := Discovery.byLength)
    Discovery.accounts Discovery.keyvaults = inl [beta; alps; alpha] /\
  (exists v, In v [beta; alps; alpha] /\ Vault.id v = "id-alps") /\
  getVaultsAllSubscriptions (collation := Discovery.byLength)
    Discovery.accounts Discovery.keyvaultsDown = inr (ShellError [1%Z]) /\
  ~ (exists vs,
       getVaultsAllSubscriptions (collation := Discovery.byLength)
         Discovery.accounts Discovery.keyvaultsDown = inl vs).
Proof.
  assert (H : getVaultsAllSubscriptions (collation := Discovery.byLength)
                Discovery.accounts Discovery.keyvaults = inl [beta; alps; alpha])
    by (vm_compute; reflexivity).
  split; [exact H|]. split; [|split].
  - apply (proj2 (proj2 (proj2 (discovered_vaults_are_the_listed_ones
                                  (collation := Discovery.byLength)
                                  Discovery.accounts Discovery.keyvaults)) _ H)
             (Subscription.mk "sub-2") (RawVault.mk "alps" None "id-alps" None)).
    + simpl. auto.
    + simpl. auto.
  - vm_compute. reflexivity.
  - intros Hex.
    apply (proj1 (discovered_vaults_are_the_listed_ones
                    (collation := Discovery.byLength)
                    Discovery.accounts Discovery.keyvaultsDown)) in Hex.
    destruct Hex as [_ Hall].
    specialize (Hall (Subscription.mk "sub-3")). simpl in Hall.
    assert (Hc : exitCode (Discovery.keyvaultsDown "sub-3") = 0%Z) by (apply Hall; auto).
    vm_compute in Hc. discriminate Hc.
Defined.

(** X24, witness: names compared by length. *)
Lemma discovered_vaults_are_sorted_by_name_witness :
  StronglySorted (nameLe (collation := Discovery.byLength)) [beta; alps; alpha].
Proof.
  apply (discovered_vaults_are_sorted_by_name (collation := Discovery.byLength)
           Discovery.accounts Discovery.keyvaults).
  - intros a b. unfold localeCompare, Discovery.byLength. lia.
  - intros a b c. unfold localeCompare, Discovery.byLength. lia.
  - vm_compute. reflexivity.
Defined.

(** ** Formatting of dates *)

Lemma pretty_N_go_length (k : nat) (x : N) (s : string) :
  (10 ^ N.of_nat k <= x < 10 ^ N.of_nat (S k))%N ->
  String.length (pretty_N_go x s) = (S k + String.length s)%nat.
Proof.
  revert x s. induction k as [|k IH]; intros x s [Hlo Hhi].
  - rewrite pretty_N_go_step by (simpl in Hlo; lia).
    replace (x `div` 10)%N with 0%N.
    + rewrite pretty_N_go_0. reflexivity.
    + symmetry. apply N.div_small. simpl in Hhi. lia.
  - assert (H10 : (10 ^ N.of_nat (S k) = 10 * 10 ^ N.of_nat k)%N).
    { rewrite Nat2N.inj_succ, N.pow_succ_r'. reflexivity. }
    assert (H100 : (10 ^ N.of_nat (S (S k)) = 10 * 10 ^ N.of_nat (S k))%N).
    { rewrite (Nat2N.inj_succ (S k)), N.pow_succ_r'. reflexivity. }
    assert (Hpos : (0 < 10 ^ N.of_nat k)%N) by (apply N.neq_0_lt_0, N.pow_nonzero; lia).
    rewrite pretty_N_go_step by lia.
    rewrite IH.
    + simpl. lia.
    + split.
      * apply N.div_le_lower_bound; lia.
      * apply N.Div0.div_lt_upper_bound; lia.
Qed.

Lemma pretty_nat_length (k n : nat) :
  10 ^ k <= n < 10 ^ S k -> String.length (pretty n) = S k.
Proof.
  intros [Hlo Hhi].
  assert (Hpos : 0 < 10 ^ k) by (apply Nat.neq_0_lt_0, Nat.pow_nonzero; lia).
  unfold pretty, pretty_nat, pretty, pretty_N.
  case_decide as H0; [lia|].
  rewrite (pretty_N_go_length k); [simpl; lia|].
  change 10%N with (N.of_nat 10). rewrite <- !Nat2N.inj_pow. lia.
Qed.

Lemma length_append (s t : string) :
  String.length (s +:+ t) = String.length s + String.length t.
Proof.
  induction s as [|a s IH]; [reflexivity|].
  rewrite append_cons. simpl. rewrite IH. reflexivity.
Qed.

Lemma pad_length (n : nat) : n < 100 -> String.length (Js.pad n) = 2.
Proof.
  intros Hn. unfold Js.pad. cbv zeta.
  destruct (decide (n = 0)) as [->|H0]; [reflexivity|].
  destruct (decide (n < 10)) as [H10|H10].
  - rewrite (pretty_nat_length 0 n) by (simpl; lia).
    change (1 <? 2)%nat with true. cbv iota.
    rewrite length_append, (pretty_nat_length 0 n) by (simpl; lia). reflexivity.
  - rewrite (pretty_nat_length 1 n) by (simpl; lia).
    change (2 <? 2)%nat with false. cbv iota. apply (pretty_nat_length 1 n). simpl. lia.
Qed.

(** X25: a date with a four-digit year is formatted in exactly 16
    characters, whatever the month, day, hour and minute. *)
Theorem formatDate_has_fixed_width (d : Date) :
  10 ^ 3 <= getFullYear d < 10 ^ 4 ->
  getMonth d <= 11 -> getDate d <= 31 -> getHours d <= 23 -> getMinutes d <= 59 ->
  String.length (formatDate (Some d)) = 16.
Proof.
  intros Hy Hm Hd Hh Hmi. unfold formatDate.
  rewrite !length_append.
  rewrite (pretty_nat_length 3) by exact Hy.
  rewrite !pad_length by lia. reflexivity.
Qed.

(** X25, witness. *)
Lemma formatDate_has_fixed_width_witness :
  formatDate (Some {| getFullYear := 2024; getMonth := 0; getDate := 9;
                      getHours := 7; getMinutes := 5 |}) = "2024-01-09 07:05" /\
  String.length
    (formatDate (Some {| getFullYear := 2024; getMonth := 0; getDate := 9;
                         getHours := 7; getMinutes := 5 |})) = 16.
Proof.
  split; [vm_compute; reflexivity|].
  apply formatDate_has_fixed_width; cbn [getFullYear getMonth getDate getHours getMinutes];
    [ split; apply Nat.leb_le; vm_compute; reflexivity | lia .. ].
Defined.

(** ** Layout *)

(** X26: whatever the size of the terminal, the left pane is at least 30
    columns wide, every widget is at least one cell wide and high where the
    code puts a lower bound, the right pane starts where the left pane ends,
    and the list starts one row below the filter. *)
Theorem layout_sizes_are_positive (scaled : Z -> Z) (visible : bool) (w h : Z) :
  let l := applyLayout scaled visible w h in
  (30 <= Box.width (Layout.leftBox l) /\
   1 <= Box.width (Layout.rightBox l) /\
   28 <= Box.width (Layout.filter l) /\
   28 <= Box.width (Layout.list l) /\
   1 <= Box.width (Layout.details l) /\
   Box.height (Layout.filter l) = 3 /\
   3 <= Box.height (Layout.list l) /\
   1 <= Box.height (Layout.details l) /\
   Box.x (Layout.rightBox l) = Box.x (Layout.leftBox l) + Box.width (Layout.leftBox l) /\
   Box.y (Layout.list l) = Box.y (Layout.filter l) + Box.height (Layout.filter l) + 1)%Z.
Proof. unfold applyLayout. simpl. lia. Qed.

(** X27: on a terminal of at least 33 columns and 15 rows, the two panes
    tile the terminal below the header and the prompt, the filter and the
    list lie inside the border of the left pane and the detail text inside
    the border of the right pane; from 80 columns on, the right pane is at
    least 50 columns wide. *)
Theorem layout_fits_the_terminal (scaled : Z -> Z) (visible : bool) (w h : Z) :
  (33 <= w)%Z -> (15 <= h)%Z ->
  let l := applyLayout scaled visible w h in
  (Box.x (Layout.leftBox l) = 0 /\
   Box.width (Layout.leftBox l) + Box.width (Layout.rightBox l) = w /\
   Box.y (Layout.leftBox l) = (if visible then 6 else 3) /\
   Box.y (Layout.leftBox l) + Box.height (Layout.leftBox l) = h /\
   Box.y (Layout.rightBox l) + Box.height (Layout.rightBox l) = h /\
   (80 <= w -> 50 <= Box.width (Layout.rightBox l)))%Z /\
  insideBorder (Layout.filter l) (Layout.leftBox l) /\
  insideBorder (Layout.list l) (Layout.leftBox l) /\
  insideBorder (Layout.details l) (Layout.rightBox l).
Proof.
  intros Hw Hh. unfold applyLayout, insideBorder. simpl. destruct visible; lia.
Qed.

(** X27, witness: a terminal of 120 by 40 with the prompt open. *)
Lemma layout_fits_the_terminal_witness :
  let l := applyLayout (fun w => 45 * w / 100)%Z true 120 40 in
  Layout.leftBox l = Box.mk 0 6 54 34 /\
  Layout.rightBox l = Box.mk 54 6 66 34 /\
  insideBorder (Layout.list l) (Layout.leftBox l).
Proof.
  split; [vm_compute; reflexivity|]. split; [vm_compute; reflexivity|].
  apply (layout_fits_the_terminal (fun w => 45 * w / 100)%Z true 120 40); lia.
Defined.

(** ** The detail pane *)

Section TextBlockFacts.
Import TextBlock.
Local Open Scope Z_scope.

Lemma drawnWithin_nil (x lo hi : Z) : drawnWithin x lo hi [].
Proof. repeat split; constructor. Qed.

Lemma drawnWithin_app (x a b c : Z) (ds1 ds2 : list Draw) :
  a <= b <= c -> drawnWithin x a b ds1 -> drawnWithin x b c ds2 ->
  drawnWithin x a c (ds1 ++ ds2).
Proof.
  intros Hb (C1 & S1 & R1) (C2 & S2 & R2). unfold drawnWithin.
  rewrite flat_map_app. split; [apply Forall_app; auto|]. split.
  - revert S1 R1. generalize (flat_map rows ds1) as l1. intros l1.
    induction l1 as [|r l1 IH]; intros S1 R1; simpl; [exact S2|].
    apply StronglySorted_inv in S1 as [S1 Hr]. apply Forall_cons in R1 as [Hr1 R1].
    constructor; [auto|]. apply Forall_app. split; [exact Hr|].
    eapply Forall_impl; [exact R2|]. simpl. intros. lia.
  - apply Forall_app. split; (eapply Forall_impl; [eassumption|]); simpl; intros; lia.
Qed.

Lemma drawnWithin_DrawText (x y : Z) (t : string) (c : Color) :
  drawnWithin x y (y + 1) [DrawText t x y c].
Proof.
  repeat split; simpl; repeat constructor; lia.
Qed.

Section Refresh.
Variable fontFails : string -> bool.
Variables (contentX contentWidth limit : Z).

Lemma wrapWords_within (line : string) (words : list string) :
  forall current y0, y0 < limit ->
    let '(ds, _, y1) := wrapWords contentX contentWidth limit line words current y0 in
    drawnWithin contentX y0 y1 ds /\ y0 <= y1 <= limit.
Proof.
  induction words as [|word words IH]; intros current y0 Hy; simpl.
  - split; [apply drawnWithin_nil|lia].
  - destruct (_ && _).
    + destruct (Z.leb_spec limit (y0 + 1)) as [Hl|Hl].
      * split; [apply drawnWithin_DrawText|lia].
      * specialize (IH word (y0 + 1) Hl).
        destruct (wrapWords _ _ _ _ _ _ _) as [[ds c] y1]. destruct IH as [IH Hy1].
        split; [|lia].
        apply (drawnWithin_app _ y0 (y0 + 1) y1 [_] ds); [lia| |exact IH].
        apply drawnWithin_DrawText.
    + apply IH, Hy.
Qed.

Lemma refreshLine_within (styled : bool) (line : string) (y0 : Z) :
  y0 < limit ->
  let '(ds, y1) := refreshLine fontFails contentX contentWidth limit styled line y0 in
  drawnWithin contentX y0 y1 ds /\ y0 <= y1 <= limit.
Proof.
  intros Hy. unfold refreshLine.
  destruct (isHeader line && styled && (y0 + 2 <? limit)) eqn:Hh.
  - apply andb_true_iff in Hh as [_ Hh]. apply Z.ltb_lt in Hh.
    destruct (fontFails _).
    + split; [apply drawnWithin_DrawText|lia].
    + split; [|lia]. repeat split; simpl; repeat constructor; lia.
  - destruct (_ || _).
    + split; [apply drawnWithin_nil|lia].
    + pose proof (wrapWords_within line (splitWords line) "" y0 Hy) as H.
      destruct (wrapWords _ _ _ _ _ _ _) as [[ds c] y1]. destruct H as [H Hy1].
      destruct (Js.truthy c && (y1 <? limit)) eqn:Hc.
      * apply andb_true_iff in Hc as [_ Hc]. apply Z.ltb_lt in Hc.
        split; [|lia].
        apply (drawnWithin_app _ y0 y1 (y1 + 1)); [lia|exact H|apply drawnWithin_DrawText].
      * auto.
Qed.

Lemma refreshLines_within (styled : bool) (lines : list string) :
  forall y0,
    drawnWithin contentX y0 limit
      (refreshLines fontFails contentX contentWidth limit styled lines y0).
Proof.
  induction lines as [|line lines IH]; intros y0; simpl; [apply drawnWithin_nil|].
  destruct (Z.ltb_spec y0 limit) as [Hy|Hy]; [|apply drawnWithin_nil].
  pose proof (refreshLine_within styled line y0 Hy) as H.
  destruct (refreshLine _ _ _ _ _ _ _) as [ds y1]. destruct H as [H Hy1].
  apply (drawnWithin_app _ y0 y1 limit); [lia|exact H|apply IH].
Qed.

(** A text that may be drawn as a wrapped piece of [line]. *)
Let fits (line current : string) : Prop :=
  current = EmptyString \/
  Z.of_nat (String.length current) <= contentWidth \/
  In current (splitWords line).

Lemma truthy_nonempty (s : string) : Js.truthy s = true -> s <> EmptyString.
Proof. destruct s; [discriminate|congruence]. Qed.

Lemma lineColor_not_header (line : string) : lineColor line <> HeaderBlue.
Proof. unfold lineColor. destruct (_ || _); discriminate. Qed.

Lemma wrapWords_wrapped (line : string) (words : list string) :
  forall current y0,
    incl words (splitWords line) -> fits line current ->
    let '(ds, c, _) := wrapWords contentX contentWidth limit line words current y0 in
    Forall (wrapped contentWidth line) ds /\ fits line c.
Proof.
  induction words as [|word words IH]; intros current y0 Hincl Hfits; simpl.
  - split; [constructor|exact Hfits].
  - assert (Hword : In word (splitWords line)) by (apply Hincl; left; reflexivity).
    assert (Hrest : incl words (splitWords line)).
    { intros w Hw. apply Hincl. right. exact Hw. }
    destruct (contentWidth <? _) eqn:Hlong; simpl.
    + destruct (Js.truthy current) eqn:Hc.
      * assert (Hd : wrapped contentWidth line
                       (DrawText current contentX y0 (lineColor line))).
        { right. split; [apply truthy_nonempty, Hc|].
          destruct Hfits as [->|H]; [discriminate|exact H]. }
        destruct (limit <=? y0 + 1).
        -- split; [constructor; [exact Hd|constructor]|]. right. right. exact Hword.
        -- specialize (IH word (y0 + 1) Hrest).
           destruct (wrapWords _ _ _ _ _ _ _) as [[ds c] y1].
           destruct IH as [IH Hf]; [right; right; exact Hword|].
           split; [constructor; assumption|exact Hf].
      * apply IH; [exact Hrest|]. destruct current; [|discriminate]. simpl.
        right. right. exact Hword.
    + apply IH; [exact Hrest|]. right. left. apply Z.ltb_ge in Hlong. exact Hlong.
Qed.

Lemma refreshLine_wrapped (styled : bool) (line : string) (y0 : Z) :
  Forall (wrapped contentWidth line)
    (fst (refreshLine fontFails contentX contentWidth limit styled line y0)).
Proof.
  unfold refreshLine. destruct (_ && _ && _).
  - destruct (fontFails _); simpl; repeat constructor.
  - destruct (_ || _); [constructor|].
    pose proof (wrapWords_wrapped line (splitWords line) "" y0) as H.
    destruct (wrapWords _ _ _ _ _ _ _) as [[ds c] y1].
    destruct H as [H Hf]; [apply incl_refl|left; reflexivity|].
    destruct (Js.truthy c) eqn:Hc; simpl; [|exact H].
    destruct (y1 <? limit); simpl; [|exact H].
    apply Forall_app. split; [exact H|]. constructor; [|constructor]. right.
    split; [apply truthy_nonempty, Hc|]. destruct Hf as [->|Hf]; [discriminate|exact Hf].
Qed.

Lemma refreshLines_wrapped (styled : bool) (lines : list string) :
  forall y0,
    Forall (fun d => exists line, In line lines /\ wrapped contentWidth line d)
      (refreshLines fontFails contentX contentWidth limit styled lines y0).
Proof.
  induction lines as [|line lines IH]; intros y0; simpl; [constructor|].
  destruct (y0 <? limit); [|constructor].
  pose proof (refreshLine_wrapped styled line y0) as H.
  destruct (refreshLine _ _ _ _ _ _ _) as [ds y1]. simpl in H.
  apply Forall_app. split.
  - eapply Forall_impl; [exact H|]. intros d Hd. exists line. auto.
  - eapply Forall_impl; [apply IH|]. intros d (l & Hl & Hd). exists l. auto.
Qed.

End Refresh.

(** X28: the text block draws in the column of its content, top down, no
    row twice (a header in the tiny font takes two rows), and only on the
    rows of its content: nothing is drawn below the pane however long the
    text is. *)
Theorem text_block_draws_inside_the_pane
    (fontFails : string -> bool) (hasFrameBuffer : bool) (text : string) (styled : bool)
    (contentX contentY contentWidth contentHeight : Z) :
  let ds :=
    refreshContent fontFails hasFrameBuffer text styled
      contentX contentY contentWidth contentHeight in
  Forall (fun d => column d = contentX) ds /\
  StronglySorted Z.lt (flat_map rows ds) /\
  Forall (fun r => contentY <= r < contentY + contentHeight) (flat_map rows ds).
Proof.
  unfold refreshContent. destruct (_ || _).
  - apply drawnWithin_nil.
  - apply refreshLines_within.
Qed.

(** X29: for a text of ASCII characters, what the text block draws as
    regular content is not empty, and it fits the width of the content
    unless it is a single word of its line, which is drawn unbroken. *)
Theorem wrapped_text_fits_the_width
    (fontFails : string -> bool) (hasFrameBuffer : bool) (text : string) (styled : bool)
    (contentX contentY contentWidth contentHeight : Z)
    (t : string) (x y : Z) (c : Color) :
  isAscii text = true ->
  In (DrawText t x y c)
     (refreshContent fontFails hasFrameBuffer text styled
        contentX contentY contentWidth contentHeight) ->
  c <> HeaderBlue ->
  t <> EmptyString /\
  (Z.of_nat (String.length t) <= contentWidth \/
   exists line, In line (splitLines text) /\ In t (splitWords line)).
Proof.
  intros _. unfold refreshContent. destruct (_ || _); [intros []|]. intros Hin Hc.
  pose proof (refreshLines_wrapped fontFails contentX contentWidth
                (contentY + contentHeight) styled (splitLines text) contentY) as H.
  rewrite Forall_forall in H. apply list_elem_of_In in Hin.
  destruct (H _ Hin) as (line & Hl & [Hh|[Hne Hfit]]); [contradiction|].
  split; [exact Hne|]. destruct Hfit as [Hfit|Hfit]; [left; exact Hfit|]. right. eauto.
Qed.

End TextBlockFacts.

(** X28, witness: the details of a secret in a pane of 11 by 4 cells drawn at
    column 2 from row 1. *)
Lemma text_block_draws_inside_the_pane_witness :
  let text :=
    "Name: db" +:+ String "010" "" +:+ String "010" "Value:"
    +:+ String "010" "hello world foo bar (empty)" in
  let ds := TextBlock.refreshContent (fun _ => false) true text false 2 1 11 4 in
  ds = [TextBlock.DrawText "Name: db" 2 1 TextBlock.TextColor;
        TextBlock.DrawText "hello world" 2 4 TextBlock.Grey] /\
  Forall (fun r => 1 <= r < 1 + 4)%Z (flat_map TextBlock.rows ds).
Proof.
  split; [vm_compute; reflexivity|].
  apply (text_block_draws_inside_the_pane (fun _ => false) true).
Defined.

(** X29, witness: a word longer than the pane is wide. *)
Lemma wrapped_text_fits_the_width_witness :
  let ds :=
    TextBlock.refreshContent (fun _ => false) true "a secret-value-without-spaces" false
      0 0 10 5 in
  isAscii "a secret-value-without-spaces" = true /\
  In (TextBlock.DrawText "secret-value-without-spaces" 0 1 TextBlock.TextColor) ds /\
  (Z.of_nat (String.length "secret-value-without-spaces") <= 10 \/
   exists line,
     In line (splitLines "a secret-value-without-spaces") /\
     In "secret-value-without-spaces" (splitWords line))%Z.
Proof.
  assert (H : In (TextBlock.DrawText "secret-value-without-spaces" 0 1 TextBlock.TextColor)
                (TextBlock.refreshContent (fun _ => false) true
                   "a secret-value-without-spaces" false 0 0 10 5)).
  { vm_compute. auto. }
  split; [reflexivity|]. split; [exact H|].
  apply (wrapped_text_fits_the_width (fun _ => false) true
           "a secret-value-without-spaces" false 0 0 10 5
           "secret-value-without-spaces" 0 1 TextBlock.TextColor);
    [reflexivity | exact H | discriminate].
Defined.
